(** * Zone segmentation of the spinor table

    A shallow embedding of the zone bookkeeping of
    [dirac_caspt2_input_generator]: [ColorInfo.setIndices]
    (src/color_info.py) and, from src/main.py, [TableWidget.load_output],
    [TableWidget.show_context_menu], [TableWidget.change_background_color]
    and [WidgetController.onTableWidgetColorChanged].

    Python integers are [Z]; [//] is [Z.div] (both round towards minus
    infinity); [range(a, b)] is [seqZ a (b - a)]. *)

From stdpp Require Import base tactics option numbers list gmap strings pretty.

Local Open Scope Z_scope.

(** ** The four zones and dictionaries keyed by them *)

(** The keys ["core"], ["inactive"], ["active"], ["secondary"] of the
    dictionaries [index_info], [color_count] and [idx_start], which are also
    the attribute names of [config.colors]. *)
Inductive Zone := Core | Inactive | Active | Secondary.

Global Instance Zone_eq_dec : EqDecision Zone.
Proof. solve_decision. Defined.

Definition zones : list Zone := [Core; Inactive; Active; Secondary].

Definition zone_name (z : Zone) : string :=
  match z with
  | Core => "core"
  | Inactive => "inactive"
  | Active => "active"
  | Secondary => "secondary"
  end.

(** A dictionary whose key set is exactly the four zone names.  Every
    dictionary of the source is created with these four keys and is only ever
    read or assigned at a literal key, so no key is ever missing. *)
Record ZoneDict (A : Type) := mkZoneDict {
  core : A;
  inactive : A;
  active : A;
  secondary : A
}.
Arguments mkZoneDict {A} _ _ _ _.
Arguments core {A} _.
Arguments inactive {A} _.
Arguments active {A} _.
Arguments secondary {A} _.

(** [d[z]] *)
Global Instance ZoneDict_lookup {A} : LookupTotal Zone A (ZoneDict A) :=
  λ z d,
    match z with
    | Core => core d
    | Inactive => inactive d
    | Active => active d
    | Secondary => secondary d
    end.

(** [d[z] = v] *)
Global Instance ZoneDict_insert {A} : Insert Zone A (ZoneDict A) :=
  λ z v d,
    match z with
    | Core => mkZoneDict v (inactive d) (active d) (secondary d)
    | Inactive => mkZoneDict (core d) v (active d) (secondary d)
    | Active => mkZoneDict (core d) (inactive d) v (secondary d)
    | Secondary => mkZoneDict (core d) (inactive d) (active d) v
    end.

(** [range(a, b)] *)
Definition range (a b : Z) : list Z := seqZ a (b - a).

(** ** ColorInfo (src/color_info.py) *)

(** [ColorInfo.index_info] at class creation. *)
Definition index_info_init : ZoneDict (Z * Z) :=
  mkZoneDict (-1, -1) (-1, -1) (-1, -1) (-1, -1).

(** [ColorInfo.setIndices], as a transformer of [index_info]. *)
Definition setIndices (inactive_start active_start secondary_start length : Z)
    (index_info : ZoneDict (Z * Z)) : ZoneDict (Z * Z) :=
  let index_info := <[Core := (0, inactive_start - 1)]> index_info in
  let index_info := <[Inactive := (inactive_start, active_start - 1)]> index_info in
  let index_info := <[Active := (active_start, secondary_start - 1)]> index_info in
  let index_info := <[Secondary := (secondary_start, length - 1)]> index_info in
  index_info.

(** ** The table, the labels and the registry as one state *)

Section Model.

(** Qt's colour values; the model only compares them. *)
Context {QColor : Type} `{EqDecision QColor}.

(** The background of a cell: a freshly built [QTableWidgetItem] has the
    default brush, [setBackground(c)] gives it a solid brush of colour [c].
    [brush == c] for a colour [c] holds exactly for [SolidBrush c]. *)
Inductive QBrush := NoBrush | SolidBrush (c : QColor).

Global Instance QBrush_eq_dec : EqDecision QBrush.
Proof. solve_decision. Defined.

Record QTableWidgetItem := mkItem {
  text : string;
  background : QBrush
}.

(** The part of a [QTableWidget] the program uses: its dimensions, the items
    that were put into its cells, and the texts of the header items of its
    columns (a column without header item shows its number). *)
Record QTableWidget := mkTable {
  rowCount : Z;
  columnCount : Z;
  items : gmap (Z * Z) QTableWidgetItem;
  horizontalHeaderLabels : gmap Z string
}.

(** The state the methods act on: the table widget, the singleton
    [color_info.index_info], and the texts of the four labels of
    [input_layout] ([core_label], ..., [secondary_label]). *)
Record World := mkWorld {
  table_widget : QTableWidget;
  color_info : ZoneDict (Z * Z);
  input_layout : ZoneDict string
}.

(** *** A state and exception monad

    A Python exception leaves the mutations made before it in place, so a
    raising computation still returns the state it reached. *)
Inductive Exn := AttributeError.

Inductive Outcome (A : Type) :=
  | Ok (a : A) (w : World)
  | Raise (e : Exn) (w : World).
Arguments Ok {A} _ _.
Arguments Raise {A} _ _.

Definition M (A : Type) : Type := World → Outcome A.

Global Instance M_ret : MRet M := λ A a w, Ok a w.
Global Instance M_bind : MBind M := λ A B f m w,
  match m w with
  | Ok a w' => f a w'
  | Raise e w' => Raise e w'
  end.

Definition raise {A} (e : Exn) : M A := λ w, Raise e w.
Definition get_world : M World := λ w, Ok w w.

(** The state a computation leaves behind, whether it returned or raised. *)
Definition final_world {A} (o : Outcome A) : World :=
  match o with Ok _ w => w | Raise _ w => w end.

(** [for x in xs: s = body(x, s)], with the loop's local variables [s]. *)
Fixpoint for_fold {A S} (xs : list A) (body : A → S → M S) (s : S) : M S :=
  match xs with
  | [] => mret s
  | x :: xs' => s' ← body x s; for_fold xs' body s'
  end.

(** [for x in xs: body(x)] *)
Definition for_ {A} (xs : list A) (body : A → M unit) : M unit :=
  for_fold xs (λ x _, body x) ().

(** *** QTableWidget operations *)

Definition in_table (t : QTableWidget) (row column : Z) : Prop :=
  0 ≤ row < rowCount t ∧ 0 ≤ column < columnCount t.

(** [QTableWidget.item(row, column)]: [None] outside the table and for a
    cell no item was put into. *)
Definition item (t : QTableWidget) (row column : Z) : option QTableWidgetItem :=
  if decide (in_table t row column) then items t !! (row, column) else None.

Definition with_table (f : QTableWidget → QTableWidget) : M unit :=
  λ w, Ok () (mkWorld (f (table_widget w)) (color_info w) (input_layout w)).

(** [setRowCount(n)]: rows from [n] on are dropped with their items. *)
Definition setRowCount (n : Z) : M unit :=
  with_table (λ t,
    mkTable n (columnCount t)
      (filter (λ kv, kv.1.1 < n) (items t)) (horizontalHeaderLabels t)).

(** [setColumnCount(n)]: columns from [n] on are dropped with their items
    and their header items. *)
Definition setColumnCount (n : Z) : M unit :=
  with_table (λ t,
    mkTable (rowCount t) n
      (filter (λ kv, kv.1.2 < n) (items t))
      (filter (λ kv, kv.1 < n) (horizontalHeaderLabels t))).

(** [setItem(row, column, item)]: ignored outside the table. *)
Definition setItem (row column : Z) (it : QTableWidgetItem) : M unit :=
  with_table (λ t,
    if decide (in_table t row column)
    then mkTable (rowCount t) (columnCount t) (<[(row, column) := it]> (items t))
           (horizontalHeaderLabels t)
    else t).

(** [self.item(row, column).setBackground(color)]: [item] returns [None]
    for a missing cell, and the attribute access on it raises. *)
Definition item_setBackground (row column : Z) (color : QColor) : M unit :=
  w ← get_world;
  match item (table_widget w) row column with
  | None => raise AttributeError
  | Some it => setItem row column (mkItem (text it) (SolidBrush color))
  end.

(** [self.item(row, column).background()] *)
Definition item_background (row column : Z) : M QBrush :=
  w ← get_world;
  match item (table_widget w) row column with
  | None => raise AttributeError
  | Some it => mret (background it)
  end.

(** [horizontalHeaderItem(column)]: [None] outside the table and for a
    column without header item. *)
Definition horizontalHeaderItem (t : QTableWidget) (column : Z) : option string :=
  if decide (0 ≤ column < columnCount t)
  then horizontalHeaderLabels t !! column else None.

(** [setHorizontalHeaderLabels(labels)]: Qt gives the columns of the table
    the labels of the same index, one after the other; labels beyond the
    last column are dropped, columns beyond the last label keep what they
    had. *)
Definition setHorizontalHeaderLabels (header_data : list string) : M unit :=
  with_table (λ t,
    mkTable (rowCount t) (columnCount t) (items t)
      (foldl (λ header column,
                match header_data !! Z.to_nat column with
                | Some label => <[column := label]> header
                | None => header
                end)
             (horizontalHeaderLabels t) (range 0 (columnCount t)))).

(** [color_info.setIndices(...)] on the singleton. *)
Definition color_info_setIndices (a b c length : Z) : M unit :=
  λ w, Ok () (mkWorld (table_widget w) (setIndices a b c length (color_info w))
                (input_layout w)).

(** [self.input_layout.<zone>_label.setText(s)] *)
Definition label_setText (z : Zone) (s : string) : M unit :=
  λ w, Ok () (mkWorld (table_widget w) (color_info w) (<[z := s]> (input_layout w))).

(** ** WidgetController.onTableWidgetColorChanged *)

(** [config.colors]: the palette in force, one colour per zone.  The module
    [config] is not part of the sources at hand; the palette is a parameter
    of the model. *)
Variable colors : ZoneDict QColor.

(** The body shared by the four branches of the scan: remember the row if it
    is the first of its zone, and add 2 to the zone's count. *)
Definition record_row (z : Zone) (row : Z) (st : ZoneDict Z * ZoneDict Z)
    : ZoneDict Z * ZoneDict Z :=
  let '(color_count, idx_start) := st in
  let idx_start :=
    if decide (idx_start !!! z = -1) then <[z := row]> idx_start else idx_start in
  let color_count := <[z := color_count !!! z + 2]> color_count in
  (color_count, idx_start).

(** The [if]/[elif] chain on the colour of a row; it has no [else]. *)
Definition scan_step (row : Z) (color : QBrush) (st : ZoneDict Z * ZoneDict Z)
    : ZoneDict Z * ZoneDict Z :=
  if decide (color = SolidBrush (colors !!! Core)) then record_row Core row st
  else if decide (color = SolidBrush (colors !!! Inactive)) then record_row Inactive row st
  else if decide (color = SolidBrush (colors !!! Active)) then record_row Active row st
  else if decide (color = SolidBrush (colors !!! Secondary)) then record_row Secondary row st
  else st.

(** Lines 353-372: the scan over column 0 of all rows.  Returns
    [(color_count, idx_start)]. *)
Definition scan_rows : M (ZoneDict Z * ZoneDict Z) :=
  let color_count := mkZoneDict 0 0 0 0 in
  let idx_start := mkZoneDict (-1) (-1) (-1) (-1) in
  w ← get_world;
  for_fold (range 0 (rowCount (table_widget w)))
    (λ row st, color ← item_background row 0; mret (scan_step row color st))
    (color_count, idx_start).

(** Lines 374-381: the defaults of the first rows that were not seen. *)
Definition resolve_unset (color_count idx_start : ZoneDict Z) : ZoneDict Z :=
  let idx_start :=
    if decide (idx_start !!! Core = -1) then <[Core := 0]> idx_start else idx_start in
  let idx_start :=
    if decide (idx_start !!! Inactive = -1)
    then <[Inactive := color_count !!! Core / 2]> idx_start else idx_start in
  let idx_start :=
    if decide (idx_start !!! Active = -1)
    then <[Active := (color_count !!! Core + color_count !!! Inactive) / 2]> idx_start
    else idx_start in
  let idx_start :=
    if decide (idx_start !!! Secondary = -1)
    then <[Secondary := (color_count !!! Core + color_count !!! Inactive
                         + color_count !!! Active) / 2]> idx_start
    else idx_start in
  idx_start.

(** The f-string [f"{name}: {n}"]. *)
Definition label_text (z : Zone) (n : Z) : string :=
  zone_name z +:+ ": " +:+ pretty n.

(** The slot itself.  The final [update()] calls of the labels repaint the
    widgets and change nothing of the state. *)
Definition onTableWidgetColorChanged : M unit :=
  '(color_count, idx_start) ← scan_rows;
  let idx_start := resolve_unset color_count idx_start in
  w ← get_world;
  color_info_setIndices (idx_start !!! Inactive) (idx_start !!! Active)
    (idx_start !!! Secondary) (rowCount (table_widget w));;
  label_setText Core (label_text Core (color_count !!! Core));;
  label_setText Inactive (label_text Inactive (color_count !!! Inactive));;
  label_setText Active (label_text Active (color_count !!! Active));;
  label_setText Secondary (label_text Secondary (color_count !!! Secondary)).

(** Emitting [colorChanged] runs the slots connected to it.  [MainWindow]
    builds one [WidgetController] for its table, whose constructor connects
    [onTableWidgetColorChanged].  An exception of the slot never reaches the
    code that emits.  The program loads Qt through qtpy: under PySide the
    exception is printed and [emit] returns, with the state the slot had
    reached; under PyQt the process ends at that point.  The model follows
    the first.  The properties of the calls that emit are stated for the
    paths on which the slot returns, or for the state that is reached. *)
Definition colorChanged_emit : M unit :=
  λ w, Ok () (final_world (onTableWidgetColorChanged w)).

(** ** TableWidget *)

(** The header loop of [load_output].  [range] is evaluated once, with the
    three fixed headers; [len(header_data)] inside the body is the current
    length. *)
Definition header_labels (len_column : Z) : list string :=
  let header_data := ["gerade/ungerade"; "no. of spinor"; "energy (a.u.)"]%string in
  foldl (λ header_data idx,
           let n := (idx - Z.of_nat (length header_data)) / 2 + 1 in
           if decide (idx mod 2 = 0)
           then header_data ++ ["percentage " +:+ pretty n]
           else header_data ++ ["AO type " +:+ pretty n])
        header_data
        (range (Z.of_nat (length header_data)) len_column).

(** The [with] block of [load_output] (lines 59-93), from the lines of the
    file already split at white space ([rows]). *)
Definition load_output_with_block (rows : list (list string)) : M unit :=
  let len_row := Z.of_nat (length rows) in
  let len_column :=
    if decide (len_row > 0) then Z.of_nat (max_list (length <$> rows)) else 0 in
  setRowCount len_row;;
  setColumnCount len_column;;
  for_ (range 0 len_row) (λ row,
    for_ (range 0 len_column) (λ column,
      let text := default ""%string
                    (rows !! Z.to_nat row ≫= λ r, r !! Z.to_nat column) in
      setItem row column (mkItem text NoBrush);;
      if decide (row < 10) then item_setBackground row column (colors !!! Core)
      else if decide (row < 20) then item_setBackground row column (colors !!! Inactive)
      else if decide (row < 30) then item_setBackground row column (colors !!! Active)
      else item_setBackground row column (colors !!! Secondary)));;
  color_info_setIndices 10 20 30 len_column;;
  setHorizontalHeaderLabels (header_labels len_column).

Definition load_output (rows : list (list string)) : M unit :=
  load_output_with_block rows;;
  colorChanged_emit.

(** Lines 98-101: the rows covered by the selected ranges, each range given
    as [(topRow, bottomRow)]. *)
Definition selected_rows_of (ranges : list (Z * Z)) : gset Z :=
  foldl (λ selected_rows r, selected_rows ∪ list_to_set (range r.1 (r.2 + 1)))
        ∅ ranges.

(** Lines 103-119: the actions added to the menu, in the order they are
    added.  The action of zone [z] is labelled [colors.<z>_message] and
    calls [change_background_color(colors.<z>)]; it is identified with [z]. *)
Definition color_options (selected_rows : gset Z) (index_info : ZoneDict (Z * Z))
    : list Zone :=
  let menu := [] in
  let menu :=
    if decide ((index_info !!! Inactive).1 ∈ selected_rows)
    then menu ++ [Core] else menu in
  let menu :=
    if decide ((index_info !!! Core).2 ∈ selected_rows
               ∨ (index_info !!! Active).1 ∈ selected_rows)
    then menu ++ [Inactive] else menu in
  let menu :=
    if decide ((index_info !!! Inactive).2 ∈ selected_rows
               ∨ (index_info !!! Secondary).1 ∈ selected_rows)
    then menu ++ [Active] else menu in
  let menu :=
    if decide ((index_info !!! Active).2 ∈ selected_rows)
    then menu ++ [Secondary] else menu in
  menu.

(** [show_context_menu], for the ranges Qt reports as selected: the menu
    that is shown. *)
Definition show_context_menu (ranges : list (Z * Z)) : M (list Zone) :=
  w ← get_world;
  mret (color_options (selected_rows_of ranges) (color_info w)).

Definition change_selected_rows_background_color (row : Z) (color : QColor) : M unit :=
  w ← get_world;
  for_ (range 0 (columnCount (table_widget w))) (λ column,
    item_setBackground row column color).

(** [change_background_color], for the model indexes [(row, column)] Qt
    reports as selected.  The rows are visited in the order of the set. *)
Definition change_background_color (indexes : list (Z * Z)) (color : QColor) : M unit :=
  let rows : gset Z := list_to_set (fst <$> indexes) in
  for_ (elements rows) (λ row, change_selected_rows_background_color row color);;
  colorChanged_emit.

(** [reload]: it loads the file at the path it is given. *)
Definition reload (rows : list (list string)) : M unit := load_output rows.

(** [QBrush.color()]: the colour of a solid brush; the default brush has
    Qt's default colour, a parameter of the model. *)
Variable default_color : QColor.

Definition brush_color (b : QBrush) : QColor :=
  match b with
  | NoBrush => default_color
  | SolidBrush c => c
  end.

(** [update_color]: every row whose cell in column 0 has a colour of the
    previous palette gets the colour of the same zone in the palette in
    force. *)
Definition update_color (prev_color : ZoneDict QColor) : M unit :=
  w ← get_world;
  for_ (range 0 (rowCount (table_widget w))) (λ row,
    color ← (b ← item_background row 0; mret (brush_color b));
    if decide (color = prev_color !!! Core)
    then change_selected_rows_background_color row (colors !!! Core)
    else if decide (color = prev_color !!! Inactive)
    then change_selected_rows_background_color row (colors !!! Inactive)
    else if decide (color = prev_color !!! Active)
    then change_selected_rows_background_color row (colors !!! Active)
    else if decide (color = prev_color !!! Secondary)
    then change_selected_rows_background_color row (colors !!! Secondary)
    else mret ()).

End Model.

Arguments Ok {_ _} _ _.
Arguments Raise {_ _} _ _.
Arguments QBrush : clear implicits.
Arguments QTableWidgetItem : clear implicits.
Arguments QTableWidget : clear implicits.
Arguments World : clear implicits.
Arguments Outcome : clear implicits.
Arguments M : clear implicits.

(** * Vocabulary of the statements *)

(** The rows a zone holds when the table of [n] rows is cut at the split
    points [a], [b], [c]. *)
Definition zone_rows (a b c n : Z) (z : Zone) (i : Z) : Prop :=
  match z with
  | Core => 0 ≤ i < a
  | Inactive => a ≤ i < b
  | Active => b ≤ i < c
  | Secondary => c ≤ i < n
  end.

(** The rule of each zone's action, as the specification words it. *)
Definition trigger (selection : gset Z) (index_info : ZoneDict (Z * Z)) (z : Zone) : Prop :=
  match z with
  | Core => (index_info !!! Inactive).1 ∈ selection
  | Inactive =>
      (index_info !!! Core).2 ∈ selection ∨ (index_info !!! Active).1 ∈ selection
  | Active =>
      (index_info !!! Inactive).2 ∈ selection ∨ (index_info !!! Secondary).1 ∈ selection
  | Secondary => (index_info !!! Active).2 ∈ selection
  end.

Global Instance trigger_dec selection index_info z :
  Decision (trigger selection index_info z).
Proof. destruct z; simpl; apply _. Defined.

Section Vocabulary.

Context {QColor : Type} `{EqDecision QColor}.
Variable colors : ZoneDict QColor.

(** The four colours of the palette differ from each other. *)
Definition palette_distinct : Prop :=
  NoDup [colors !!! Core; colors !!! Inactive; colors !!! Active; colors !!! Secondary].

(** The brush of a row painted with the colour of zone [z]. *)
Definition zone_brush (z : Zone) : QBrush QColor := SolidBrush (colors !!! z).

(** A row carries the colour of zone [z]. *)
Definition carries (z : Zone) (b : QBrush QColor) : Prop := b = zone_brush z.

Global Instance carries_dec z b : Decision (carries z b).
Proof. unfold carries. apply _. Defined.

(** The row has one of the four zone colours. *)
Definition recognized (b : QBrush QColor) : Prop := ∃ z, carries z b.

(** The RowColoring of a table: the backgrounds of column 0, row by row;
    [None] when some row has no item there. *)
Definition row_coloring (t : QTableWidget QColor) : option (list (QBrush QColor)) :=
  mapM (λ row, background <$> item t row 0) (range 0 (rowCount t)).

(** The number of rows that carry the colour of zone [z]. *)
Definition rows_of (z : Zone) (cs : list (QBrush QColor)) : Z :=
  Z.of_nat (length (filter (carries z) cs)).

(** [r] is the smallest index of a row that carries the colour of [z], or
    the sentinel -1 when no row does. *)
Definition first_seen_of (z : Zone) (cs : list (QBrush QColor)) (r : Z) : Prop :=
  (r = -1 ∧ ∀ b, b ∈ cs → ¬ carries z b)
  ∨ (∃ i : nat,
       r = Z.of_nat i
       ∧ cs !! i = Some (zone_brush z)
       ∧ ∀ j b, (j < i)%nat → cs !! j = Some b → ¬ carries z b).

(** A colouring in zone order: [n1] core rows, then [n2] inactive rows, then
    [n3] active rows, then [n4] secondary rows. *)
Definition zone_ordered (n1 n2 n3 n4 : nat) : list (QBrush QColor) :=
  replicate n1 (zone_brush Core) ++ replicate n2 (zone_brush Inactive)
  ++ replicate n3 (zone_brush Active) ++ replicate n4 (zone_brush Secondary).

(** The scan of lines 353-372 run on a colouring whose first row has index
    [row]. *)
Fixpoint scan_from (row : Z) (cs : list (QBrush QColor))
    (st : ZoneDict Z * ZoneDict Z) : ZoneDict Z * ZoneDict Z :=
  match cs with
  | [] => st
  | c :: cs' => scan_from (row + 1) cs' (scan_step colors row c st)
  end.

(** The loop variables before the first row. *)
Definition scan_init : ZoneDict Z * ZoneDict Z :=
  (mkZoneDict 0 0 0 0, mkZoneDict (-1) (-1) (-1) (-1)).

(** What the scan is to compute from a colouring: for every zone, twice the
    number of its rows and its first row. *)
Definition scanned (cs : list (QBrush QColor)) (st : ZoneDict Z * ZoneDict Z) : Prop :=
  ∀ z, st.1 !!! z = 2 * rows_of z cs ∧ first_seen_of z cs (st.2 !!! z).

(** The state a pass leaves when its scan ended with [color_count] and
    [idx_start]. *)
Definition reconciled (color_count idx_start : ZoneDict Z) (w : World QColor)
    : World QColor :=
  let idx_start := resolve_unset color_count idx_start in
  mkWorld (table_widget w)
    (setIndices (idx_start !!! Inactive) (idx_start !!! Active)
       (idx_start !!! Secondary) (rowCount (table_widget w)) (color_info w))
    (mkZoneDict (label_text Core (color_count !!! Core))
       (label_text Inactive (color_count !!! Inactive))
       (label_text Active (color_count !!! Active))
       (label_text Secondary (color_count !!! Secondary))).

(** The branch the [if]/[elif] chain of the scan takes for a brush. *)
Definition classify (b : QBrush QColor) : option Zone :=
  if decide (b = SolidBrush (colors !!! Core)) then Some Core
  else if decide (b = SolidBrush (colors !!! Inactive)) then Some Inactive
  else if decide (b = SolidBrush (colors !!! Active)) then Some Active
  else if decide (b = SolidBrush (colors !!! Secondary)) then Some Secondary
  else None.

(** Two states with tables of the same dimensions and with the same
    registry and labels: they differ in the cells of the table at most. *)
Definition same_frame (w w' : World QColor) : Prop :=
  rowCount (table_widget w') = rowCount (table_widget w)
  ∧ columnCount (table_widget w') = columnCount (table_widget w)
  ∧ color_info w' = color_info w
  ∧ input_layout w' = input_layout w.

(** The zone a row is painted with by its position alone: rows 0-9 core,
    10-19 inactive, 20-29 active, all later rows secondary. *)
Definition zone_of_position (row : Z) : Zone :=
  if decide (row < 10) then Core
  else if decide (row < 20) then Inactive
  else if decide (row < 30) then Active
  else Secondary.

(** The text of cell [(row, column)] of the loaded file, empty where the
    line has fewer fields. *)
Definition cell_text (rows : list (list string)) (row column : Z) : string :=
  default ""%string (rows !! Z.to_nat row ≫= λ r, r !! Z.to_nat column).

(** The number of columns [load_output] gives the table. *)
Definition len_column_of (rows : list (list string)) : Z :=
  if decide (Z.of_nat (length rows) > 0)
  then Z.of_nat (max_list (length <$> rows)) else 0.

(** Every cell of the table holds an item. *)
Definition populated (t : QTableWidget QColor) : Prop :=
  ∀ row column, in_table t row column → is_Some (item t row column).

(** All cells of a row have the background of the row's cell in column 0. *)
Definition row_uniform (t : QTableWidget QColor) : Prop :=
  ∀ row column, in_table t row column →
    background <$> item t row column = background <$> item t row 0.

End Vocabulary.

(** * Vocabulary of the further properties *)

(** Row [i] lies between the first and the last row stored for zone [z]. *)
Definition in_stored_range (index_info : ZoneDict (Z * Z)) (z : Zone) (i : Z) : Prop :=
  (index_info !!! z).1 ≤ i ≤ (index_info !!! z).2.

(** The number of rows between the first and the last row stored for [z]. *)
Definition stored_size (index_info : ZoneDict (Z * Z)) (z : Zone) : Z :=
  (index_info !!! z).2 - (index_info !!! z).1 + 1.

Section FurtherVocabulary.

Context {QColor : Type} `{EqDecision QColor}.

(** An item with its brush replaced by a solid brush of a colour. *)
Definition repaint (color : QColor) (it : QTableWidgetItem QColor)
    : QTableWidgetItem QColor :=
  mkItem (text it) (SolidBrush color).

(** A colouring with the rows of a set given one colour. *)
Definition recolor_rows (rows : gset Z) (color : QColor)
    (cs : list (QBrush QColor)) : list (QBrush QColor) :=
  imap (λ i b, if decide (Z.of_nat i ∈ rows) then SolidBrush color else b) cs.

(** The boundaries between neighbouring zones. *)
Inductive Boundary := CoreInactive | InactiveActive | ActiveSecondary.

(** The zone above a boundary (the rows before it) and the zone below. *)
Definition above (bd : Boundary) : Zone :=
  match bd with
  | CoreInactive => Core
  | InactiveActive => Inactive
  | ActiveSecondary => Active
  end.

Definition below (bd : Boundary) : Zone :=
  match bd with
  | CoreInactive => Inactive
  | InactiveActive => Active
  | ActiveSecondary => Secondary
  end.

(** For numbers of rows per zone: the index of the first row of a zone in
    the colouring in zone order, the colouring itself, and the boundaries
    that describe it. *)
Definition zone_start (n : ZoneDict nat) (z : Zone) : nat :=
  match z with
  | Core => 0
  | Inactive => n !!! Core
  | Active => n !!! Core + n !!! Inactive
  | Secondary => n !!! Core + n !!! Inactive + n !!! Active
  end.

Definition zone_ordered_of (colors : ZoneDict QColor) (n : ZoneDict nat)
    : list (QBrush QColor) :=
  zone_ordered colors (n !!! Core) (n !!! Inactive) (n !!! Active) (n !!! Secondary).

Definition registry_of (n : ZoneDict nat) : ZoneDict (Z * Z) :=
  setIndices (Z.of_nat (zone_start n Inactive)) (Z.of_nat (zone_start n Active))
    (Z.of_nat (zone_start n Secondary))
    (Z.of_nat (zone_start n Secondary + n !!! Secondary)) index_info_init.

(** The numbers of rows after the zone above a boundary took the first [k]
    rows of the zone below, and after the zone below took the last [k] rows
    of the zone above. *)
Definition grow_down (bd : Boundary) (k : nat) (n : ZoneDict nat) : ZoneDict nat :=
  <[above bd := (n !!! above bd + k)%nat]>
    (<[below bd := (n !!! below bd - k)%nat]> n).

Definition grow_up (bd : Boundary) (k : nat) (n : ZoneDict nat) : ZoneDict nat :=
  <[below bd := (n !!! below bd + k)%nat]>
    (<[above bd := (n !!! above bd - k)%nat]> n).

(** The zone whose colour in a palette a colour is, as the [if]/[elif]
    chain of [update_color] finds it. *)
Definition classify_color (palette : ZoneDict QColor) (c : QColor) : option Zone :=
  if decide (c = palette !!! Core) then Some Core
  else if decide (c = palette !!! Inactive) then Some Inactive
  else if decide (c = palette !!! Active) then Some Active
  else if decide (c = palette !!! Secondary) then Some Secondary
  else None.

(** A brush of a colour of the previous palette becomes the brush of the
    same zone in the new palette; any other brush stays. *)
Definition translate (default_color : QColor) (colors prev_color : ZoneDict QColor)
    (b : QBrush QColor) : QBrush QColor :=
  match classify_color prev_color (brush_color default_color b) with
  | Some z => SolidBrush (colors !!! z)
  | None => b
  end.

(** The item of cell [(r, c)] after [update_color]: repainted by the zone
    of the cell in column 0 of its row. *)
Definition updated_cell (default_color : QColor) (colors prev_color : ZoneDict QColor)
    (t : QTableWidget QColor) (r c : Z) : option (QTableWidgetItem QColor) :=
  match item t r 0 with
  | Some it0 =>
      match classify_color prev_color (brush_color default_color (background it0)) with
      | Some z => repaint (colors !!! z) <$> item t r c
      | None => item t r c
      end
  | None => item t r c
  end.

(** The texts of all cells of [w'] are those of the state [w]. *)
Definition same_texts (w w' : World QColor) : Prop :=
  ∀ r c, text <$> item (table_widget w') r c = text <$> item (table_widget w) r c.

End FurtherVocabulary.

(** The label [load_output] gives the column of index [idx], for the columns
    after the three fixed ones. *)
Definition header_label (idx : Z) : string :=
  if decide (idx mod 2 = 0) then "percentage 1" else "AO type 1".

(** The label of a column: the three fixed headers, then [header_label]. *)
Definition column_label (column : Z) : string :=
  if decide (column = 0) then "gerade/ungerade"
  else if decide (column = 1) then "no. of spinor"
  else if decide (column = 2) then "energy (a.u.)"
  else header_label column.

(** * Sample palette and tables

    Colours as strings; a palette of four different colours; tables of one
    column that show a given colouring. *)

Definition sample_colors : ZoneDict string :=
  mkZoneDict "#aaccee" "#cceeaa" "#eeccaa" "#ccaaee".

(** A colour outside the palette. *)
Definition other_color : string := "#ffffff".

(** The labels as [InputLayout.init_UI] creates them. *)
Definition labels_init : ZoneDict string :=
  mkZoneDict "core" "inactive" "active" "secondary".

(** The state at start-up: an empty table, the registry of the class body,
    the fresh labels. *)
Definition world_init : World string :=
  mkWorld (mkTable 0 0 ∅ ∅) index_info_init labels_init.

(** A table of one column whose rows have the given brushes. *)
Definition table_of_column (cs : list (QBrush string)) : QTableWidget string :=
  mkTable (Z.of_nat (length cs)) 1
    (list_to_map (imap (λ i b, ((Z.of_nat i, 0), mkItem "" b)) cs)) ∅.

Definition world_of_column (cs : list (QBrush string)) : World string :=
  mkWorld (table_of_column cs) index_info_init labels_init.

(** One row of each zone, in zone order. *)
Definition one_of_each : list (QBrush string) :=
  zone_brush sample_colors <$> zones.

(** An active row above an inactive row. *)
Definition active_above_inactive : list (QBrush string) :=
  [zone_brush sample_colors Active; zone_brush sample_colors Inactive].

(** A file of 40 lines of 5 fields each, and one of 30 empty lines. *)
Definition file_40x5 : list (list string) := replicate 40 (replicate 5 "0.0"%string).
Definition file_30_empty : list (list string) := replicate 30 [].

(** The state after [file_40x5] was loaded at start-up. *)
Definition loaded_40x5 : World string :=
  final_world (load_output sample_colors file_40x5 world_init).

(** Ten rows in each zone. *)
Definition ten_each : ZoneDict nat := mkZoneDict 10%nat 10%nat 10%nat 10%nat.

(** A second palette of four different colours, and the colour of the
    default brush. *)
Definition other_colors : ZoneDict string :=
  mkZoneDict "#102030" "#302010" "#203010" "#103020".

Definition black : string := "#000000".

(** A file of 12 lines of 2 fields each. *)
Definition file_12x2 : list (list string) := replicate 12 ["E1u"; "1"]%string.

(** * Properties *)

(** ** Dictionaries keyed by zone *)

Lemma ZoneDict_lookup_insert {A} (d : ZoneDict A) (z : Zone) (v : A) :
  <[z := v]> d !!! z = v.
Proof. by destruct z. Qed.

Lemma ZoneDict_lookup_insert_ne {A} (d : ZoneDict A) (z z' : Zone) (v : A) :
  z ≠ z' → <[z := v]> d !!! z' = d !!! z'.
Proof. by destruct z, z'. Qed.

Lemma elem_of_zones (z : Zone) : z ∈ zones.
Proof. unfold zones. destruct z; set_solver. Qed.

(** ** [range] *)

Lemma elem_of_range (a b i : Z) : i ∈ range a b ↔ a ≤ i < b.
Proof. unfold range. rewrite elem_of_seqZ. lia. Qed.

(** ** ColorInfo.setIndices *)

(** C3.  For split points [0 ≤ a ≤ b ≤ c ≤ n], the boundaries stored by
    [setIndices a b c n] are contiguous: the core zone starts at row 0, each
    zone ends one row before the next one starts, the secondary zone ends at
    row [n - 1].  Each stored pair delimits exactly the rows of its zone, and
    a zone without rows is stored as a pair with [first > last] (then
    [last = first - 1]), a zone with rows never is. *)
Theorem setIndices_contiguous (a b c n : Z) (index_info : ZoneDict (Z * Z)) :
  0 ≤ a → a ≤ b → b ≤ c → c ≤ n →
  let stored := setIndices a b c n index_info in
  (stored !!! Core).1 = 0
  ∧ (stored !!! Core).2 + 1 = (stored !!! Inactive).1
  ∧ (stored !!! Inactive).2 + 1 = (stored !!! Active).1
  ∧ (stored !!! Active).2 + 1 = (stored !!! Secondary).1
  ∧ (stored !!! Secondary).2 = n - 1
  ∧ ∀ z,
      (∀ i, (stored !!! z).1 ≤ i ≤ (stored !!! z).2 ↔ zone_rows a b c n z i)
      ∧ ((stored !!! z).1 > (stored !!! z).2 ↔ ∀ i, ¬ zone_rows a b c n z i)
      ∧ (stored !!! z).1 ≤ (stored !!! z).2 + 1.
Proof.
  intros Ha Hab Hbc Hcn stored. subst stored.
  split_and!; [simpl; lia..|].
  intros z. split_and!.
  - intros i. destruct z; simpl; lia.
  - split.
    + intros Hdeg i. destruct z; simpl in *; lia.
    + intros Hempty.
      destruct z; simpl in *;
        [specialize (Hempty 0)|specialize (Hempty a)
        |specialize (Hempty b)|specialize (Hempty c)]; lia.
  - destruct z; simpl; lia.
Qed.

Lemma setIndices_contiguous_witness :
  let stored := setIndices 10 10 30 40 index_info_init in
  (stored !!! Core).1 = 0
  ∧ (stored !!! Core).2 + 1 = (stored !!! Inactive).1
  ∧ (stored !!! Inactive).2 + 1 = (stored !!! Active).1
  ∧ (stored !!! Active).2 + 1 = (stored !!! Secondary).1
  ∧ (stored !!! Secondary).2 = 40 - 1
  ∧ ∀ z,
      (∀ i, (stored !!! z).1 ≤ i ≤ (stored !!! z).2 ↔ zone_rows 10 10 30 40 z i)
      ∧ ((stored !!! z).1 > (stored !!! z).2 ↔ ∀ i, ¬ zone_rows 10 10 30 40 z i)
      ∧ (stored !!! z).1 ≤ (stored !!! z).2 + 1.
Proof. apply (setIndices_contiguous 10 10 30 40 index_info_init); lia. Defined.

(** ** TableWidget.show_context_menu *)

Lemma elem_of_selected_rows_of (ranges : list (Z * Z)) (i : Z) :
  i ∈ selected_rows_of ranges ↔ ∃ r, r ∈ ranges ∧ r.1 ≤ i ≤ r.2.
Proof.
  unfold selected_rows_of.
  induction ranges as [|r ranges IH] using rev_ind.
  - simpl. split; [set_solver|]. intros (r & Hr & _). by apply elem_of_nil in Hr.
  - rewrite foldl_app. simpl. rewrite elem_of_union, IH, elem_of_list_to_set, elem_of_range.
    split.
    + intros [(r' & Hr' & Hi)|Hi].
      * exists r'. split; [|done]. apply elem_of_app. by left.
      * exists r. split; [|lia]. apply elem_of_app. right. by apply list_elem_of_singleton.
    + intros (r' & Hr' & Hi). apply elem_of_app in Hr' as [Hr'|Hr'].
      * left. by exists r'.
      * apply list_elem_of_singleton in Hr' as ->. right. lia.
Qed.

(** C4.  For every set of selected rows and every content of [index_info],
    the menu lists, in the order core, inactive, active, secondary, exactly
    the zones whose rule holds. *)
Theorem color_options_trigger (selection : gset Z) (index_info : ZoneDict (Z * Z)) :
  color_options selection index_info = filter (trigger selection index_info) zones
  ∧ ∀ z, z ∈ color_options selection index_info ↔ trigger selection index_info z.
Proof.
  assert (color_options selection index_info
          = filter (trigger selection index_info) zones) as Heq.
  { unfold color_options, zones.
    rewrite !filter_cons, filter_nil. simpl.
    repeat destruct (decide _); done. }
  split; [done|]. intros z. rewrite Heq, list_elem_of_filter.
  split; [by intros [Hz _]|]. intros Hz. split; [done|apply elem_of_zones].
Qed.

(** Membership of a row in a selection of one row, in hypotheses coming from
    the tests of [color_options]. *)
Ltac singleton_rows :=
  repeat match goal with
    | H : _ ∈ {[ _ ]} |- _ => apply elem_of_singleton in H
    | H : _ ∨ _ |- _ => destruct H
    | H : ¬ (_ ∨ _) |- _ => apply Decidable.not_or in H; destruct H
    | H : ¬ (_ ∈ {[ _ ]}) |- _ => rewrite elem_of_singleton in H
    end;
  congruence.

Lemma show_context_menu_options {QColor} (ranges : list (Z * Z)) (w : World QColor) :
  show_context_menu ranges w
  = Ok (color_options (selected_rows_of ranges) (color_info w)) w.
Proof. done. Qed.

(** C8 holds only when the last core row is no other trigger: if it is not
    the first or last inactive row, the first secondary row or the last
    active row, the selection made of that row alone is offered exactly the
    action inactive. *)
Theorem color_options_singleton_core_last (index_info : ZoneDict (Z * Z)) :
  (index_info !!! Core).2 ≠ (index_info !!! Inactive).1 →
  (index_info !!! Core).2 ≠ (index_info !!! Inactive).2 →
  (index_info !!! Core).2 ≠ (index_info !!! Secondary).1 →
  (index_info !!! Core).2 ≠ (index_info !!! Active).2 →
  color_options {[ (index_info !!! Core).2 ]} index_info = [Inactive].
Proof.
  intros Hif Hil Hsf Hal. unfold color_options.
  repeat destruct (decide _); try done; singleton_rows.
Qed.

Lemma color_options_singleton_core_last_witness :
  color_options {[ 9 ]} (setIndices 10 20 30 40 index_info_init) = [Inactive].
Proof.
  apply (color_options_singleton_core_last (setIndices 10 20 30 40 index_info_init));
    simpl; lia.
Defined.

(** The four conditions are also necessary. *)
Lemma color_options_singleton_core_last_only (index_info : ZoneDict (Z * Z)) :
  color_options {[ (index_info !!! Core).2 ]} index_info = [Inactive] →
  (index_info !!! Core).2 ≠ (index_info !!! Inactive).1
  ∧ (index_info !!! Core).2 ≠ (index_info !!! Inactive).2
  ∧ (index_info !!! Core).2 ≠ (index_info !!! Secondary).1
  ∧ (index_info !!! Core).2 ≠ (index_info !!! Active).2.
Proof.
  unfold color_options.
  repeat destruct (decide _); try done; intros _;
    split_and!; intros Heq; singleton_rows.
Qed.

(** C8 as stated fails: with an empty inactive zone the last core row is
    also the stored last inactive row, and the action active is offered
    too. *)
Lemma color_options_singleton_core_last_cex :
  ¬ ∀ index_info : ZoneDict (Z * Z),
      (index_info !!! Core).2 ≠ (index_info !!! Active).1 →
      color_options {[ (index_info !!! Core).2 ]} index_info = [Inactive].
Proof.
  intros Hclaim.
  pose proof (Hclaim (setIndices 10 10 30 40 index_info_init)) as Hmenu.
  assert ((setIndices 10 10 30 40 index_info_init !!! Core).2
          ≠ (setIndices 10 10 30 40 index_info_init !!! Active).1) as Hne
    by (simpl; lia).
  specialize (Hmenu Hne). vm_compute in Hmenu. discriminate Hmenu.
Qed.

(** ** WidgetController.onTableWidgetColorChanged *)

Section Reconcile.

Context {QColor : Type} `{EqDecision QColor}.
Variable colors : ZoneDict QColor.

Implicit Types (w : World QColor) (t : QTableWidget QColor).
Implicit Types (b : QBrush QColor) (cs : list (QBrush QColor)).
Implicit Types (st : ZoneDict Z * ZoneDict Z) (z : Zone).

Lemma bind_Ok {A B} (m : M QColor A) (f : A → M QColor B) w a w' :
  m w = Ok a w' → (m ≫= f) w = f a w'.
Proof. intros Hm. unfold mbind, M_bind. by rewrite Hm. Qed.

Lemma bind_Raise {A B} (m : M QColor A) (f : A → M QColor B) w e w' :
  m w = Raise e w' → (m ≫= f) w = Raise e w'.
Proof. intros Hm. unfold mbind, M_bind. by rewrite Hm. Qed.

(** *** The chain of colour tests *)

Lemma scan_step_classify row b st :
  scan_step colors row b st
  = match classify colors b with
    | Some z => record_row z row st
    | None => st
    end.
Proof. unfold scan_step, classify. by repeat destruct (decide _). Qed.

Lemma classify_Some b z : classify colors b = Some z → carries colors z b.
Proof.
  unfold classify, carries, zone_brush.
  repeat destruct (decide _); intros; by simplify_eq.
Qed.

Lemma classify_None b : classify colors b = None → ∀ z, ¬ carries colors z b.
Proof.
  unfold classify, carries, zone_brush.
  repeat destruct (decide _); intros ? z; try done. by destruct z.
Qed.

Lemma palette_distinct_inj z z' :
  palette_distinct colors → colors !!! z = colors !!! z' → z = z'.
Proof.
  unfold palette_distinct. rewrite !NoDup_cons, !not_elem_of_cons.
  intros Hd Heq. destruct_and!.
  destruct z, z'; simpl in *; congruence.
Qed.

Lemma carries_inj z z' b :
  palette_distinct colors → carries colors z b → carries colors z' b → z = z'.
Proof.
  unfold carries, zone_brush. intros Hd -> Heq.
  apply (palette_distinct_inj _ _ Hd). congruence.
Qed.

Lemma classify_carries b z :
  palette_distinct colors → carries colors z b → classify colors b = Some z.
Proof.
  intros Hd Hz. destruct (classify colors b) as [z'|] eqn:Hc.
  - f_equal. apply classify_Some in Hc. by apply (carries_inj z' z b).
  - by apply classify_None with (z := z) in Hc.
Qed.

(** *** Counting rows and finding the first one *)

Lemma rows_of_app z cs1 cs2 :
  rows_of colors z (cs1 ++ cs2) = rows_of colors z cs1 + rows_of colors z cs2.
Proof. unfold rows_of. rewrite filter_app, length_app. lia. Qed.

Lemma rows_of_singleton z b :
  rows_of colors z [b] = if decide (carries colors z b) then 1 else 0.
Proof.
  unfold rows_of. rewrite filter_cons, filter_nil. by destruct (decide _).
Qed.

Lemma rows_of_replicate z z' (n : nat) :
  palette_distinct colors →
  rows_of colors z (replicate n (zone_brush colors z'))
  = if decide (z = z') then Z.of_nat n else 0.
Proof.
  intros Hd. induction n as [|n IH].
  - by destruct (decide _).
  - change (replicate (S n) ?x) with ([x] ++ replicate n x).
    rewrite rows_of_app, rows_of_singleton, IH.
    destruct (decide (z = z')) as [->|Hne].
    + rewrite decide_True by done. lia.
    + rewrite decide_False; [done|].
      intros Hc. apply Hne. by apply (carries_inj z z' (zone_brush colors z')).
Qed.

Lemma first_seen_of_nil z : first_seen_of colors z [] (-1).
Proof. left. split; [done|]. intros b Hb. by apply elem_of_nil in Hb. Qed.

(** A row of another colour appended to the colouring changes nothing. *)
Lemma first_seen_of_snoc_other z cs b r :
  ¬ carries colors z b →
  first_seen_of colors z cs r → first_seen_of colors z (cs ++ [b]) r.
Proof.
  intros Hb [[-> Hnone]|(i & -> & Hi & Hmin)].
  - left. split; [done|]. intros b' Hb'.
    apply elem_of_app in Hb' as [Hb'|Hb']; [by apply Hnone|].
    by apply list_elem_of_singleton in Hb' as ->.
  - right. exists i. split_and!; [done|by apply lookup_app_l_Some|].
    intros j b' Hj Hlook. apply (Hmin j b' Hj).
    rewrite lookup_app_l in Hlook; [done|].
    apply lookup_lt_Some in Hi. lia.
Qed.

(** A row of the zone's colour appended to the colouring is the first one
    exactly when none was seen before. *)
Lemma first_seen_of_snoc_carries z cs b r :
  carries colors z b →
  first_seen_of colors z cs r →
  first_seen_of colors z (cs ++ [b])
    (if decide (r = -1) then Z.of_nat (length cs) else r).
Proof.
  intros Hb [[-> Hnone]|(i & -> & Hi & Hmin)].
  - rewrite decide_True by done. right. exists (length cs). split_and!; [done|..].
    + rewrite lookup_app_r by lia. rewrite Nat.sub_diag. simpl. by rewrite Hb.
    + intros j b' Hj Hlook. rewrite lookup_app_l in Hlook by done.
      apply Hnone. by apply list_elem_of_lookup_2 in Hlook.
  - rewrite decide_False by lia. right. exists i.
    split_and!; [done|by apply lookup_app_l_Some|].
    intros j b' Hj Hlook. apply (Hmin j b' Hj).
    rewrite lookup_app_l in Hlook; [done|].
    apply lookup_lt_Some in Hi. lia.
Qed.

(** The index of the first row of a colour is determined by the colouring. *)
Lemma first_seen_of_unique z cs r1 r2 :
  first_seen_of colors z cs r1 → first_seen_of colors z cs r2 → r1 = r2.
Proof.
  intros [[-> Hnone1]|(i1 & -> & Hi1 & Hmin1)] [[-> Hnone2]|(i2 & -> & Hi2 & Hmin2)].
  - done.
  - exfalso. apply (Hnone1 (zone_brush colors z)); [|done].
    by apply list_elem_of_lookup_2 in Hi2.
  - exfalso. apply (Hnone2 (zone_brush colors z)); [|done].
    by apply list_elem_of_lookup_2 in Hi1.
  - destruct (Nat.lt_trichotomy i1 i2) as [Hlt|[->|Hlt]]; [|done|].
    + exfalso. by apply (Hmin2 i1 _ Hlt Hi1).
    + exfalso. by apply (Hmin1 i2 _ Hlt Hi2).
Qed.

(** *** The scan of a colouring *)

Lemma scan_from_snoc row cs b st :
  scan_from colors row (cs ++ [b]) st
  = scan_step colors (row + Z.of_nat (length cs)) b (scan_from colors row cs st).
Proof.
  revert row st. induction cs as [|c cs IH]; intros row st; simpl.
  - by rewrite Z.add_0_r.
  - rewrite IH. f_equal. lia.
Qed.

Lemma record_row_count z z' row st :
  (record_row z row st).1 !!! z'
  = if decide (z = z') then st.1 !!! z + 2 else st.1 !!! z'.
Proof. destruct st as [cc idx]. by destruct z, z'. Qed.

Lemma record_row_idx z z' row st :
  (record_row z row st).2 !!! z'
  = if decide (z = z')
    then (if decide (st.2 !!! z = -1) then row else st.2 !!! z)
    else st.2 !!! z'.
Proof.
  destruct st as [cc idx]. unfold record_row. simpl.
  destruct (decide (idx !!! z = -1)); by destruct z, z'.
Qed.

Lemma scanned_init : scanned colors [] scan_init.
Proof. intros z. split; [by destruct z|]. destruct z; apply first_seen_of_nil. Qed.

Lemma scanned_snoc_other cs b st :
  (∀ z, ¬ carries colors z b) →
  scanned colors cs st → scanned colors (cs ++ [b]) st.
Proof.
  intros Hb Hst z. destruct (Hst z) as [Hcount Hfirst]. split.
  - rewrite rows_of_app, rows_of_singleton, decide_False by apply Hb. lia.
  - by apply first_seen_of_snoc_other.
Qed.

Lemma scanned_snoc_carries cs b st z :
  palette_distinct colors → carries colors z b →
  scanned colors cs st →
  scanned colors (cs ++ [b]) (record_row z (Z.of_nat (length cs)) st).
Proof.
  intros Hd Hb Hst z'. destruct (Hst z') as [Hcount Hfirst].
  rewrite record_row_count, record_row_idx, rows_of_app, rows_of_singleton.
  destruct (decide (z = z')) as [<-|Hne].
  - rewrite decide_True by done. split; [lia|].
    by apply first_seen_of_snoc_carries.
  - assert (¬ carries colors z' b) as Hb'.
    { intros Hb'. apply Hne. by apply (carries_inj z z' b). }
    rewrite decide_False by done. split; [lia|].
    by apply first_seen_of_snoc_other.
Qed.

Lemma scanned_scan_from cs :
  palette_distinct colors → scanned colors cs (scan_from colors 0 cs scan_init).
Proof.
  intros Hd. induction cs as [|b cs IH] using rev_ind; [apply scanned_init|].
  rewrite scan_from_snoc, scan_step_classify, Z.add_0_l.
  destruct (classify colors b) as [z|] eqn:Hb.
  - apply scanned_snoc_carries; [done|by apply classify_Some|done].
  - apply scanned_snoc_other; [by apply classify_None|done].
Qed.

(** A row of an unrecognized colour leaves the loop variables as they are. *)
Lemma scan_step_unrecognized row b st :
  ¬ recognized colors b → scan_step colors row b st = st.
Proof.
  intros Hb. rewrite scan_step_classify.
  destruct (classify colors b) as [z|] eqn:Hc; [|done].
  destruct Hb. exists z. by apply classify_Some.
Qed.

(** *** The scan of a table *)

Lemma item_background_Some w row column it :
  item (table_widget w) row column = Some it →
  item_background row column w = Ok (background it) w.
Proof.
  intros Hit. unfold item_background.
  rewrite (bind_Ok _ _ w w w) by done. by rewrite Hit.
Qed.

Lemma item_background_None w row column :
  item (table_widget w) row column = None →
  item_background row column w = Raise AttributeError w.
Proof.
  intros Hit. unfold item_background.
  rewrite (bind_Ok _ _ w w w) by done. by rewrite Hit.
Qed.

Lemma for_fold_scan (n : nat) (m : Z) cs st w :
  Forall2 (λ row b, background <$> item (table_widget w) row 0 = Some b)
    (seqZ m (Z.of_nat n)) cs →
  for_fold (seqZ m (Z.of_nat n))
    (λ row st, color ← item_background row 0; mret (scan_step colors row color st))
    st w
  = Ok (scan_from colors m cs st) w.
Proof.
  revert m cs st. induction n as [|n IH]; intros m cs st Hcs.
  - rewrite seqZ_nil in Hcs |- * by lia.
    by apply Forall2_nil_inv_l in Hcs as ->.
  - rewrite seqZ_cons in Hcs |- * by lia.
    replace (Z.pred (Z.of_nat (S n))) with (Z.of_nat n) in Hcs |- * by lia.
    apply Forall2_cons_inv_l in Hcs as (b & cs' & Hb & Hcs' & ->).
    destruct (item (table_widget w) m 0) as [it|] eqn:Hit; [|done].
    simpl in Hb. simplify_eq. simpl.
    rewrite (bind_Ok _ _ w (scan_step colors m (background it) st) w).
    + replace (m + 1) with (Z.succ m) by lia. by apply IH.
    + rewrite (bind_Ok _ _ w (background it) w); [done|].
      by apply item_background_Some.
Qed.

Lemma scan_rows_coloring w cs :
  row_coloring (table_widget w) = Some cs →
  scan_rows colors w = Ok (scan_from colors 0 cs scan_init) w.
Proof.
  unfold row_coloring, scan_rows, range. intros Hcs.
  apply mapM_Some in Hcs.
  rewrite (bind_Ok _ _ w w w) by done.
  assert (seqZ 0 (rowCount (table_widget w) - 0)
          = seqZ 0 (Z.of_nat (Z.to_nat (rowCount (table_widget w) - 0)))) as Hseq
    by (unfold seqZ; by rewrite Nat2Z.id).
  rewrite Hseq in Hcs |- *. by apply for_fold_scan.
Qed.

Lemma row_coloring_length t cs :
  row_coloring t = Some cs → length cs = Z.to_nat (rowCount t).
Proof.
  unfold row_coloring, range. intros Hcs.
  apply length_mapM in Hcs. rewrite length_seqZ in Hcs. lia.
Qed.

(** The scan reads the table and writes nothing. *)
Lemma scan_loop_final_world (rows : list Z) st w :
  final_world
    (for_fold rows
       (λ row st, color ← item_background row 0; mret (scan_step colors row color st))
       st w) = w.
Proof.
  revert st. induction rows as [|row rows IH]; intros st; [done|].
  simpl.
  destruct (item (table_widget w) row 0) as [it|] eqn:Hit.
  - rewrite (bind_Ok _ _ w (scan_step colors row (background it) st) w); [apply IH|].
    rewrite (bind_Ok _ _ w (background it) w); [done|].
    by apply item_background_Some.
  - rewrite (bind_Raise _ _ w AttributeError w); [done|].
    apply bind_Raise. by apply item_background_None.
Qed.

Lemma scan_rows_final_world w : final_world (scan_rows colors w) = w.
Proof.
  unfold scan_rows. rewrite (bind_Ok _ _ w w w) by done.
  apply scan_loop_final_world.
Qed.

(** *** The whole pass *)

Lemma reconcile_after_scan w color_count idx_start :
  scan_rows colors w = Ok (color_count, idx_start) w →
  onTableWidgetColorChanged colors w = Ok () (reconciled color_count idx_start w).
Proof.
  intros Hscan. unfold onTableWidgetColorChanged.
  by rewrite (bind_Ok _ _ w (color_count, idx_start) w).
Qed.

Lemma reconcile_raises_after_scan w e :
  scan_rows colors w = Raise e w →
  onTableWidgetColorChanged colors w = Raise e w.
Proof. intros Hscan. unfold onTableWidgetColorChanged. by apply bind_Raise. Qed.

(** A pass never touches the table. *)
Lemma reconcile_table w :
  table_widget (final_world (onTableWidgetColorChanged colors w)) = table_widget w.
Proof.
  pose proof (scan_rows_final_world w) as Hw.
  destruct (scan_rows colors w) as [[cc idx] w'|e w'] eqn:Hscan; simpl in Hw; subst w'.
  - by rewrite (reconcile_after_scan w cc idx).
  - by rewrite (reconcile_raises_after_scan w e).
Qed.

(** *** Emitting the signal *)

Lemma colorChanged_emit_Ok w w' :
  onTableWidgetColorChanged colors w = Ok () w' →
  colorChanged_emit colors w = Ok () w'.
Proof. intros Hpass. unfold colorChanged_emit. by rewrite Hpass. Qed.

Lemma colorChanged_emit_final_world w :
  final_world (colorChanged_emit colors w)
  = final_world (onTableWidgetColorChanged colors w).
Proof. done. Qed.

Lemma colorChanged_emit_table w :
  table_widget (final_world (colorChanged_emit colors w)) = table_widget w.
Proof. rewrite colorChanged_emit_final_world. apply reconcile_table. Qed.

(** C1.  When column 0 of the table shows a colouring [cs] whose rows all
    have one of the four zone colours (the colours being different from each
    other), the scan of a pass returns, for every zone, as first-seen index
    the smallest index of a row of that colour, or -1 when there is none,
    and as count twice the number of rows of that colour. *)
Theorem scan_rows_first_seen_and_count w cs :
  palette_distinct colors →
  row_coloring (table_widget w) = Some cs →
  Forall (recognized colors) cs →
  ∃ color_count idx_start,
    scan_rows colors w = Ok (color_count, idx_start) w
    ∧ ∀ z, first_seen_of colors z cs (idx_start !!! z)
           ∧ color_count !!! z = 2 * rows_of colors z cs.
Proof.
  intros Hd Hcs _.
  destruct (scan_from colors 0 cs scan_init) as [cc idx] eqn:Hscan.
  exists cc, idx. split.
  - rewrite <-Hscan. by apply scan_rows_coloring.
  - intros z. pose proof (scanned_scan_from cs Hd z) as [Hcount Hfirst].
    rewrite Hscan in Hcount, Hfirst. done.
Qed.

(** C10.  On a table without rows a pass returns normally, shows the count
    0 in all four labels and stores the pair (0, -1) for all four zones. *)
Theorem reconcile_empty_table w :
  rowCount (table_widget w) = 0 →
  onTableWidgetColorChanged colors w
  = Ok () (mkWorld (table_widget w)
             (mkZoneDict (0, -1) (0, -1) (0, -1) (0, -1))
             (mkZoneDict "core: 0" "inactive: 0" "active: 0" "secondary: 0")).
Proof.
  intros Hrows.
  assert (row_coloring (table_widget w) = Some []) as Hcs
    by (unfold row_coloring; by rewrite Hrows).
  apply scan_rows_coloring in Hcs. simpl in Hcs.
  rewrite (reconcile_after_scan w _ _ Hcs).
  unfold reconciled. by rewrite Hrows.
Qed.

(** *** What the labels show *)

Lemma reconciled_labels color_count idx_start w z :
  input_layout (reconciled color_count idx_start w) !!! z
  = label_text z (color_count !!! z).
Proof. by destruct z. Qed.

(** C5, as the code has it.  When column 0 of the table shows a colouring
    [cs] (the four colours being different from each other), a pass returns
    normally and each label shows the count of the scan unhalved: twice the
    number of rows of the zone's colour. *)
Theorem reconcile_labels_doubled w cs :
  palette_distinct colors →
  row_coloring (table_widget w) = Some cs →
  ∃ w', onTableWidgetColorChanged colors w = Ok () w'
        ∧ ∀ z, input_layout w' !!! z = label_text z (2 * rows_of colors z cs).
Proof.
  intros Hd Hcs.
  destruct (scan_from colors 0 cs scan_init) as [cc idx] eqn:Hscan.
  exists (reconciled cc idx w). split.
  - apply reconcile_after_scan. rewrite <-Hscan. by apply scan_rows_coloring.
  - intros z. rewrite reconciled_labels. f_equal.
    pose proof (scanned_scan_from cs Hd z) as [Hcount _].
    by rewrite Hscan in Hcount.
Qed.

(** *** Rows of an unrecognized colour *)

Lemma rows_of_singleton_classify z b :
  palette_distinct colors →
  rows_of colors z [b] = if decide (classify colors b = Some z) then 1 else 0.
Proof.
  intros Hd. rewrite rows_of_singleton.
  destruct (decide (carries colors z b)) as [Hz|Hz].
  - by rewrite decide_True by by apply classify_carries.
  - rewrite decide_False; [done|]. intros Hc. by apply classify_Some in Hc.
Qed.

Lemma rows_of_total_singleton b :
  palette_distinct colors →
  rows_of colors Core [b] + rows_of colors Inactive [b]
  + rows_of colors Active [b] + rows_of colors Secondary [b]
  = match classify colors b with Some _ => 1 | None => 0 end.
Proof.
  intros Hd. rewrite !rows_of_singleton_classify by done.
  destruct (classify colors b) as [[]|]; repeat case_decide; by simplify_eq.
Qed.

Lemma rows_of_total_le cs :
  palette_distinct colors →
  rows_of colors Core cs + rows_of colors Inactive cs
  + rows_of colors Active cs + rows_of colors Secondary cs
  ≤ Z.of_nat (length cs).
Proof.
  intros Hd. induction cs as [|b cs IH]; [done|].
  change (b :: cs) with ([b] ++ cs). rewrite !rows_of_app, length_app.
  pose proof (rows_of_total_singleton b Hd) as Hb.
  destruct (classify colors b); simpl; lia.
Qed.

Lemma rows_of_total_lt cs :
  palette_distinct colors →
  Exists (λ b, ¬ recognized colors b) cs →
  rows_of colors Core cs + rows_of colors Inactive cs
  + rows_of colors Active cs + rows_of colors Secondary cs
  < Z.of_nat (length cs).
Proof.
  intros Hd Hex. induction Hex as [b cs Hb|b cs Hex IH].
  - change (b :: cs) with ([b] ++ cs). rewrite !rows_of_app, length_app.
    pose proof (rows_of_total_singleton b Hd) as Hsum.
    pose proof (rows_of_total_le cs Hd) as Hle.
    destruct (classify colors b) as [z|] eqn:Hc; [|simpl; lia].
    destruct Hb. exists z. by apply classify_Some.
  - change (b :: cs) with ([b] ++ cs). rewrite !rows_of_app, length_app.
    pose proof (rows_of_total_singleton b Hd) as Hsum.
    destruct (classify colors b); simpl; lia.
Qed.

(** C6, as the code has it.  When column 0 of the table shows a colouring
    [cs] with a row of an unrecognized colour (the four colours being
    different from each other), a pass raises nothing: it returns normally
    with the state of any other pass.  The unrecognized rows are skipped:
    the step of the scan leaves the loop variables as they are on such a
    row, every zone's count and first row are those of the rows of exactly
    that zone's colour, and the four counts add up to less than 2 per row. *)
Theorem reconcile_skips_unrecognized w cs :
  palette_distinct colors →
  row_coloring (table_widget w) = Some cs →
  Exists (λ b, ¬ recognized colors b) cs →
  ∃ color_count idx_start,
    scan_rows colors w = Ok (color_count, idx_start) w
    ∧ onTableWidgetColorChanged colors w = Ok () (reconciled color_count idx_start w)
    ∧ (∀ row b st, ¬ recognized colors b → scan_step colors row b st = st)
    ∧ (∀ z, color_count !!! z = 2 * rows_of colors z cs
            ∧ first_seen_of colors z cs (idx_start !!! z))
    ∧ color_count !!! Core + color_count !!! Inactive
      + color_count !!! Active + color_count !!! Secondary
      < 2 * Z.of_nat (length cs).
Proof.
  intros Hd Hcs Hex.
  destruct (scan_from colors 0 cs scan_init) as [cc idx] eqn:Hscan.
  assert (scan_rows colors w = Ok (cc, idx) w) as Hrows
    by (rewrite <-Hscan; by apply scan_rows_coloring).
  pose proof (scanned_scan_from cs Hd) as Hsc. rewrite Hscan in Hsc.
  exists cc, idx.
  split_and!; [done|by apply reconcile_after_scan|apply scan_step_unrecognized|done|].
  pose proof (rows_of_total_lt cs Hd Hex) as Hlt.
  destruct (Hsc Core) as [Hc1 _]. destruct (Hsc Inactive) as [Hc2 _].
  destruct (Hsc Active) as [Hc3 _]. destruct (Hsc Secondary) as [Hc4 _].
  simpl in Hc1, Hc2, Hc3, Hc4. lia.
Qed.

(** *** The split points of a colouring in zone order *)

Lemma half_of_double (k n : Z) : k = 2 * n → k / 2 = n.
Proof. intros ->. rewrite Z.mul_comm. apply Z.div_mul. lia. Qed.

Lemma resolve_unset_Inactive color_count idx_start :
  resolve_unset color_count idx_start !!! Inactive
  = if decide (idx_start !!! Inactive = -1)
    then color_count !!! Core / 2 else idx_start !!! Inactive.
Proof.
  destruct idx_start. unfold resolve_unset. simpl.
  by repeat destruct (decide _).
Qed.

Lemma resolve_unset_Active color_count idx_start :
  resolve_unset color_count idx_start !!! Active
  = if decide (idx_start !!! Active = -1)
    then (color_count !!! Core + color_count !!! Inactive) / 2
    else idx_start !!! Active.
Proof.
  destruct idx_start. unfold resolve_unset. simpl.
  by repeat destruct (decide _).
Qed.

Lemma resolve_unset_Secondary color_count idx_start :
  resolve_unset color_count idx_start !!! Secondary
  = if decide (idx_start !!! Secondary = -1)
    then (color_count !!! Core + color_count !!! Inactive
          + color_count !!! Active) / 2
    else idx_start !!! Secondary.
Proof.
  destruct idx_start. unfold resolve_unset. simpl.
  by repeat destruct (decide _).
Qed.

Lemma not_carries_replicate z z' (n : nat) :
  palette_distinct colors → z ≠ z' →
  Forall (λ b, ¬ carries colors z b) (replicate n (zone_brush colors z')).
Proof.
  intros Hd Hne. apply Forall_replicate. intros Hc. apply Hne.
  by apply (carries_inj z z' (zone_brush colors z')).
Qed.

(** The first row of a block of [n] rows of one colour between rows of
    other colours. *)
Lemma first_seen_of_block z cs1 (n k : nat) cs2 :
  length cs1 = k →
  Forall (λ b, ¬ carries colors z b) cs1 →
  Forall (λ b, ¬ carries colors z b) cs2 →
  first_seen_of colors z (cs1 ++ replicate n (zone_brush colors z) ++ cs2)
    (if decide (n = 0%nat) then -1 else Z.of_nat k).
Proof.
  intros <- H1 H2. destruct (decide (n = 0%nat)) as [->|Hn].
  - left. split; [done|]. intros b Hb. simpl in Hb.
    apply elem_of_app in Hb as [Hb|Hb].
    + by apply (proj1 (Forall_forall _ _) H1).
    + by apply (proj1 (Forall_forall _ _) H2).
  - right. exists (length cs1). split_and!; [done|..].
    + rewrite lookup_app_r by lia. rewrite Nat.sub_diag.
      destruct n as [|n]; done.
    + intros j b Hj Hb. rewrite lookup_app_l in Hb by done.
      apply list_elem_of_lookup_2 in Hb.
      by apply (proj1 (Forall_forall _ _) H1).
Qed.

Lemma first_seen_of_zone_ordered (n1 n2 n3 n4 : nat) :
  palette_distinct colors →
  let cs := zone_ordered colors n1 n2 n3 n4 in
  first_seen_of colors Inactive cs
    (if decide (n2 = 0%nat) then -1 else Z.of_nat n1)
  ∧ first_seen_of colors Active cs
      (if decide (n3 = 0%nat) then -1 else Z.of_nat (n1 + n2))
  ∧ first_seen_of colors Secondary cs
      (if decide (n4 = 0%nat) then -1 else Z.of_nat (n1 + n2 + n3)).
Proof.
  intros Hd cs. subst cs. unfold zone_ordered. split_and!.
  - apply first_seen_of_block.
    + apply length_replicate.
    + by apply not_carries_replicate.
    + apply Forall_app. split; by apply not_carries_replicate.
  - rewrite (app_assoc (replicate n1 _)).
    apply first_seen_of_block.
    + by rewrite length_app, !length_replicate.
    + apply Forall_app. split; by apply not_carries_replicate.
    + by apply not_carries_replicate.
  - rewrite <-(app_nil_r (replicate n4 _)).
    rewrite (app_assoc (replicate n2 _)), (app_assoc (replicate n1 _)).
    apply first_seen_of_block; [|..|done].
    + rewrite !length_app, !length_replicate. lia.
    + repeat (apply Forall_app; split); by apply not_carries_replicate.
Qed.

Lemma rows_of_zone_ordered (n1 n2 n3 n4 : nat) :
  palette_distinct colors →
  let cs := zone_ordered colors n1 n2 n3 n4 in
  rows_of colors Core cs = Z.of_nat n1
  ∧ rows_of colors Inactive cs = Z.of_nat n2
  ∧ rows_of colors Active cs = Z.of_nat n3
  ∧ rows_of colors Secondary cs = Z.of_nat n4.
Proof.
  intros Hd cs. subst cs. unfold zone_ordered.
  rewrite !rows_of_app, !rows_of_replicate by done.
  split_and!; repeat case_decide; simplify_eq; lia.
Qed.

(** C2, for colourings in zone order.  When column 0 of the table shows
    [n1] core rows followed by [n2] inactive, [n3] active and [n4]
    secondary rows (any of the numbers may be 0; the four colours are
    different from each other), the split points after the defaults are
    [n1], [n1 + n2] and [n1 + n2 + n3], hence in order, and they are what
    the pass hands to [setIndices]. *)
Theorem split_points_zone_ordered w (n1 n2 n3 n4 : nat) :
  palette_distinct colors →
  row_coloring (table_widget w) = Some (zone_ordered colors n1 n2 n3 n4) →
  ∃ color_count idx_start,
    scan_rows colors w = Ok (color_count, idx_start) w
    ∧ let resolved := resolve_unset color_count idx_start in
      resolved !!! Inactive = Z.of_nat n1
      ∧ resolved !!! Active = Z.of_nat (n1 + n2)
      ∧ resolved !!! Secondary = Z.of_nat (n1 + n2 + n3)
      ∧ resolved !!! Inactive ≤ resolved !!! Active ≤ resolved !!! Secondary
      ∧ onTableWidgetColorChanged colors w
        = Ok () (reconciled color_count idx_start w)
      ∧ color_info (reconciled color_count idx_start w)
        = setIndices (Z.of_nat n1) (Z.of_nat (n1 + n2)) (Z.of_nat (n1 + n2 + n3))
            (rowCount (table_widget w)) (color_info w).
Proof.
  intros Hd Hcs.
  destruct (scan_from colors 0 (zone_ordered colors n1 n2 n3 n4) scan_init)
    as [cc idx] eqn:Hscan.
  assert (scan_rows colors w = Ok (cc, idx) w) as Hrows
    by (rewrite <-Hscan; by apply scan_rows_coloring).
  pose proof (scanned_scan_from (zone_ordered colors n1 n2 n3 n4) Hd) as Hsc.
  rewrite Hscan in Hsc.
  destruct (rows_of_zone_ordered n1 n2 n3 n4 Hd) as (Hr1 & Hr2 & Hr3 & Hr4).
  destruct (first_seen_of_zone_ordered n1 n2 n3 n4 Hd) as (Hf2 & Hf3 & Hf4).
  destruct (Hsc Core) as [Hc1 _]. destruct (Hsc Inactive) as [Hc2 Hi2].
  destruct (Hsc Active) as [Hc3 Hi3]. destruct (Hsc Secondary) as [_ Hi4].
  simpl in Hc1, Hc2, Hc3, Hi2, Hi3, Hi4.
  rewrite Hr1 in Hc1. rewrite Hr2 in Hc2. rewrite Hr3 in Hc3.
  pose proof (first_seen_of_unique _ _ _ _ Hi2 Hf2) as He2.
  pose proof (first_seen_of_unique _ _ _ _ Hi3 Hf3) as He3.
  pose proof (first_seen_of_unique _ _ _ _ Hi4 Hf4) as He4.
  assert (resolve_unset cc idx !!! Inactive = Z.of_nat n1) as Ha.
  { rewrite resolve_unset_Inactive, Hc1, (half_of_double _ (Z.of_nat n1)) by lia.
    rewrite He2. repeat case_decide; lia. }
  assert (resolve_unset cc idx !!! Active = Z.of_nat (n1 + n2)) as Hb.
  { rewrite resolve_unset_Active, Hc1, Hc2,
      (half_of_double _ (Z.of_nat (n1 + n2))) by lia.
    rewrite He3. repeat case_decide; lia. }
  assert (resolve_unset cc idx !!! Secondary = Z.of_nat (n1 + n2 + n3)) as Hc.
  { rewrite resolve_unset_Secondary, Hc1, Hc2, Hc3,
      (half_of_double _ (Z.of_nat (n1 + n2 + n3))) by lia.
    rewrite He4. repeat case_decide; lia. }
  exists cc, idx. split; [done|]. simpl.
  split_and!; [done|done|done|lia|lia|by apply reconcile_after_scan|].
  unfold reconciled. simpl. by rewrite Ha, Hb, Hc.
Qed.

End Reconcile.

(** ** Painting cells *)

Section Painting.

Context {QColor : Type} `{EqDecision QColor}.
Variable colors : ZoneDict QColor.

Implicit Types (w : World QColor) (t : QTableWidget QColor).
Implicit Types (it : QTableWidgetItem QColor).

Lemma same_frame_refl w : same_frame w w.
Proof. by repeat split. Qed.

Lemma same_frame_trans w1 w2 w3 :
  same_frame w1 w2 → same_frame w2 w3 → same_frame w1 w3.
Proof.
  intros (? & ? & ? & ?) (? & ? & ? & ?). repeat split; congruence.
Qed.

Lemma same_frame_in_table w w' row column :
  same_frame w w' →
  in_table (table_widget w') row column ↔ in_table (table_widget w) row column.
Proof. intros (Hr & Hc & _). unfold in_table. by rewrite Hr, Hc. Qed.

Lemma item_Some_in_table t row column it :
  item t row column = Some it → in_table t row column.
Proof. unfold item. by destruct (decide _). Qed.

Lemma for__nil {A} (body : A → M QColor unit) w : for_ [] body w = Ok () w.
Proof. done. Qed.

Lemma for__cons {A} (x : A) (xs : list A) (body : A → M QColor unit) w w1 :
  body x w = Ok () w1 → for_ (x :: xs) body w = for_ xs body w1.
Proof. intros Hx. unfold for_. simpl. by rewrite (bind_Ok _ _ w () w1). Qed.

(** [setItem] on a cell of the table replaces the item of that cell. *)
Lemma setItem_in_table w row column it :
  in_table (table_widget w) row column →
  ∃ w', setItem row column it w = Ok () w'
        ∧ same_frame w w'
        ∧ ∀ r c, item (table_widget w') r c
                 = if decide (r = row ∧ c = column) then Some it
                   else item (table_widget w) r c.
Proof.
  intros Hin. eexists. split.
  { unfold setItem, with_table. by rewrite decide_True by done. }
  split; [by repeat split|]. intros r c. unfold item, in_table. simpl.
  destruct (decide (r = row ∧ c = column)) as [[-> ->]|Hne].
  - rewrite decide_True by done. apply lookup_insert_eq.
  - destruct (decide _); [|done]. apply lookup_insert_ne.
    intros [= <- <-]. by apply Hne.
Qed.

(** [setBackground] on the item of a cell changes its brush only. *)
Lemma item_setBackground_Some w row column (color : QColor) it :
  item (table_widget w) row column = Some it →
  ∃ w', item_setBackground row column color w = Ok () w'
        ∧ same_frame w w'
        ∧ ∀ r c, item (table_widget w') r c
                 = if decide (r = row ∧ c = column)
                   then Some (mkItem (text it) (SolidBrush color))
                   else item (table_widget w) r c.
Proof.
  intros Hit.
  destruct (setItem_in_table w row column (mkItem (text it) (SolidBrush color)))
    as (w' & Hset & Hframe & Hitems); [by apply item_Some_in_table in Hit|].
  exists w'. split; [|done].
  unfold item_setBackground. rewrite (bind_Ok _ _ w w w) by done. by rewrite Hit.
Qed.

(** A loop whose round [k] puts into the cells [D k] items that satisfy [Q]
    and leaves the other cells alone does so for the cells of all rounds. *)
Lemma for_paints {K} (xs : list K) (body : K → M QColor unit)
    (D : K → Z → Z → Prop) `{∀ k r c, Decision (D k r c)}
    (Q : Z → Z → QTableWidgetItem QColor → Prop)
    (Inv : World QColor → Prop) w :
  (∀ k w1, k ∈ xs → same_frame w w1 → Inv w1 →
     ∃ w2, body k w1 = Ok () w2 ∧ same_frame w1 w2 ∧ Inv w2
       ∧ ∀ r c,
           (D k r c → ∃ it, item (table_widget w2) r c = Some it ∧ Q r c it)
           ∧ (¬ D k r c →
              item (table_widget w2) r c = item (table_widget w1) r c)) →
  Inv w →
  ∃ w', for_ xs body w = Ok () w' ∧ same_frame w w' ∧ Inv w'
    ∧ ∀ r c,
        ((∃ k, k ∈ xs ∧ D k r c) →
         ∃ it, item (table_widget w') r c = Some it ∧ Q r c it)
        ∧ ((∀ k, k ∈ xs → ¬ D k r c) →
           item (table_widget w') r c = item (table_widget w) r c).
Proof.
  revert w. induction xs as [|x xs IH]; intros w Hbody Hinv.
  - exists w. split_and!; [done|apply same_frame_refl|done|].
    intros r c. split; [|done]. intros (k & Hk & _). by apply elem_of_nil in Hk.
  - destruct (Hbody x w) as (w1 & Hx & Hframe1 & Hinv1 & Hcells1);
      [by left|apply same_frame_refl|done|].
    destruct (IH w1) as (w' & Hxs & Hframe' & Hinv' & Hcells'); [|done|].
    { intros k w2 Hk Hframe2 Hinv2. apply Hbody; [by right| |done].
      by apply (same_frame_trans w w1 w2). }
    exists w'. split_and!.
    + by rewrite (for__cons x xs body w w1).
    + by apply (same_frame_trans w w1 w').
    + done.
    + intros r c. destruct (Hcells' r c) as [Hin' Hout'].
      destruct (Hcells1 r c) as [Hin1 Hout1]. split.
      * intros (k & Hk & HD).
        destruct (decide (Exists (λ k, D k r c) xs)) as [Hex|Hnex].
        -- apply Hin'. by apply Exists_exists in Hex.
        -- rewrite Hout'.
           ++ apply Hin1. apply elem_of_cons in Hk as [->|Hk]; [done|].
              destruct Hnex. apply Exists_exists. by exists k.
           ++ intros k' Hk' HD'. apply Hnex. apply Exists_exists. by exists k'.
      * intros Hnone. rewrite Hout'.
        -- apply Hout1. apply Hnone. by left.
        -- intros k Hk. apply Hnone. by right.
Qed.

(** *** TableWidget.change_background_color *)

Lemma populated_same_frame w w' :
  same_frame w w' →
  (∀ r c, is_Some (item (table_widget w) r c) → is_Some (item (table_widget w') r c)) →
  populated (table_widget w) → populated (table_widget w').
Proof.
  intros Hframe Hsome Hpop r c Hin. apply Hsome, Hpop.
  by apply (same_frame_in_table w w').
Qed.

(** Recolouring one row of a populated table gives every cell of the row
    the colour and leaves the other rows as they are. *)
Lemma change_selected_rows_background_color_row w row (color : QColor) :
  0 ≤ row < rowCount (table_widget w) →
  populated (table_widget w) →
  ∃ w', change_selected_rows_background_color row color w = Ok () w'
    ∧ same_frame w w' ∧ populated (table_widget w')
    ∧ ∀ r c,
        (r = row ∧ 0 ≤ c < columnCount (table_widget w) →
         ∃ it, item (table_widget w') r c = Some it
               ∧ background it = SolidBrush color)
        ∧ (r ≠ row → item (table_widget w') r c = item (table_widget w) r c).
Proof.
  intros Hrow Hpop.
  destruct (for_paints (range 0 (columnCount (table_widget w)))
              (λ column, item_setBackground row column color)
              (λ column r c, r = row ∧ c = column)
              (λ _ _ it, background it = SolidBrush color)
              (λ w, populated (table_widget w)) w)
    as (w' & Hloop & Hframe & Hpop' & Hcells); [|done|].
  { intros column w1 Hcol Hframe1 Hpop1. apply elem_of_range in Hcol.
    destruct (Hpop1 row column) as [it Hit].
    { apply (same_frame_in_table w w1); [done|]. unfold in_table. lia. }
    destruct (item_setBackground_Some w1 row column color it Hit)
      as (w2 & Hset & Hframe2 & Hitems).
    exists w2. split_and!; [done|done|..].
    - apply (populated_same_frame w1 w2); [done| |done].
      intros r c Hsome. rewrite Hitems. by destruct (decide _).
    - intros r c. rewrite Hitems. split.
      + intros HD. rewrite decide_True by done. by eexists.
      + intros HD. by rewrite decide_False by done. }
  exists w'. split_and!; [|done|done|].
  - unfold change_selected_rows_background_color.
    by rewrite (bind_Ok _ _ w w w) by done.
  - intros r c. destruct (Hcells r c) as [Hin Hout]. split.
    + intros [-> Hc]. apply Hin. exists c. split; [|done].
      apply elem_of_range. lia.
    + intros Hne. apply Hout. intros k _ [? _]. done.
Qed.

(** Recolouring the rows of a list, one after the other. *)
Lemma change_background_color_loop w (rows : list Z) (color : QColor) :
  (∀ row, row ∈ rows → 0 ≤ row < rowCount (table_widget w)) →
  populated (table_widget w) →
  ∃ w', for_ rows (λ row, change_selected_rows_background_color row color) w
        = Ok () w'
    ∧ same_frame w w' ∧ populated (table_widget w')
    ∧ ∀ r c,
        (r ∈ rows ∧ 0 ≤ c < columnCount (table_widget w) →
         ∃ it, item (table_widget w') r c = Some it
               ∧ background it = SolidBrush color)
        ∧ (r ∉ rows → item (table_widget w') r c = item (table_widget w) r c).
Proof.
  intros Hrows Hpop.
  destruct (for_paints rows
              (λ row, change_selected_rows_background_color row color)
              (λ row r c, r = row ∧ 0 ≤ c < columnCount (table_widget w))
              (λ _ _ it, background it = SolidBrush color)
              (λ w, populated (table_widget w)) w)
    as (w' & Hloop & Hframe & Hpop' & Hcells); [|done|].
  { intros row w1 Hrow Hframe1 Hpop1.
    destruct (change_selected_rows_background_color_row w1 row color)
      as (w2 & Hrec & Hframe2 & Hpop2 & Hcells2); [|done|].
    { destruct Hframe1 as (-> & _). by apply Hrows. }
    exists w2. split_and!; [done..|].
    intros r c. destruct (Hcells2 r c) as [Hin Hout].
    destruct Hframe1 as (_ & Hcols & _). rewrite Hcols in Hin. split; [done|].
    intros HD. destruct (decide (r = row)) as [->|Hne]; [|by apply Hout].
    assert (¬ in_table (table_widget w1) row c) as Hc1.
    { unfold in_table. rewrite Hcols. intros [_ Hc]. by apply HD. }
    assert (¬ in_table (table_widget w2) row c) as Hc2.
    { intros Hc. apply Hc1. by apply (same_frame_in_table w1 w2). }
    unfold item. by rewrite !decide_False. }
  exists w'. split_and!; [done..|].
  intros r c. destruct (Hcells r c) as [Hin Hout]. split.
  - intros [Hr Hc]. apply Hin. by exists r.
  - intros Hr. apply Hout. by intros k Hk [-> _].
Qed.

(** C9.  On a populated table and for selected indexes inside it,
    [change_background_color] leaves the dimensions of the table as they
    are, gives every cell of every selected row the colour, and leaves the
    rows that are not selected as they are.  So a table whose rows are each
    of one colour stays so, and column 0 of a row shows the colour of all the
    cells of the row. *)
Theorem change_background_color_rows w (indexes : list (Z * Z)) (color : QColor) :
  populated (table_widget w) →
  (∀ ix, ix ∈ indexes → in_table (table_widget w) ix.1 ix.2) →
  let t := table_widget w in
  let t' := table_widget (final_world (change_background_color colors indexes color w)) in
  rowCount t' = rowCount t
  ∧ columnCount t' = columnCount t
  ∧ populated t'
  ∧ (∀ row column, row ∈ (fst <$> indexes) → in_table t row column →
       background <$> item t' row column = Some (SolidBrush color))
  ∧ (∀ row column, row ∉ (fst <$> indexes) →
       item t' row column = item t row column)
  ∧ (row_uniform t → row_uniform t').
Proof.
  intros Hpop Hix t t'.
  destruct (change_background_color_loop w
              (elements (list_to_set (fst <$> indexes) : gset Z)) color)
    as (w' & Hloop & Hframe & Hpop' & Hcells); [|done|].
  { intros row Hrow. apply elem_of_elements, elem_of_list_to_set in Hrow.
    apply list_elem_of_fmap in Hrow as (ix & -> & Hin).
    by destruct (Hix ix Hin). }
  assert (t' = table_widget w') as Ht'.
  { subst t'. unfold change_background_color.
    rewrite (bind_Ok _ _ w () w') by done. apply colorChanged_emit_table. }
  clearbody t'. subst t t'.
  assert (∀ row, row ∈ elements (list_to_set (fst <$> indexes) : gset Z)
                 ↔ row ∈ (fst <$> indexes)) as Hsel.
  { intros row. by rewrite elem_of_elements, elem_of_list_to_set. }
  assert (∀ row column, row ∈ (fst <$> indexes) →
            in_table (table_widget w) row column →
            background <$> item (table_widget w') row column
            = Some (SolidBrush color)) as Hin.
  { intros row column Hrow [_ Hc].
    destruct (Hcells row column) as [(it & -> & Hbg) _]; [|by rewrite <-Hbg].
    split; [by apply Hsel|done]. }
  assert (∀ row column, row ∉ (fst <$> indexes) →
            item (table_widget w') row column
            = item (table_widget w) row column) as Hout.
  { intros row column Hrow.
    destruct (Hcells row column) as [_ Hsame]. apply Hsame.
    by rewrite Hsel. }
  destruct Hframe as (Hr & Hc & _).
  split_and!; [done..|].
  intros Huni row column Hcell.
  assert (in_table (table_widget w) row column) as Hcell_t.
  { unfold in_table in *. by rewrite <-Hr, <-Hc. }
  assert (in_table (table_widget w) row 0) as Hcell0
    by (unfold in_table in *; lia).
  destruct (decide (row ∈ (fst <$> indexes))) as [Hrow|Hrow].
  - by rewrite !Hin.
  - rewrite !Hout by done. by apply Huni.
Qed.

(** *** TableWidget.load_output *)

(** The body of the inner loop of [load_output]: the cell gets the text of
    the file and the colour of the position of its row. *)
Lemma load_output_cell (rows : list (list string)) w row column :
  in_table (table_widget w) row column →
  ∃ w',
    (setItem row column (mkItem (cell_text rows row column) NoBrush);;
     if decide (row < 10) then item_setBackground row column (colors !!! Core)
     else if decide (row < 20) then item_setBackground row column (colors !!! Inactive)
     else if decide (row < 30) then item_setBackground row column (colors !!! Active)
     else item_setBackground row column (colors !!! Secondary)) w = Ok () w'
    ∧ same_frame w w'
    ∧ ∀ r c, item (table_widget w') r c
             = if decide (r = row ∧ c = column)
               then Some (mkItem (cell_text rows row column)
                            (zone_brush colors (zone_of_position row)))
               else item (table_widget w) r c.
Proof.
  intros Hin.
  destruct (setItem_in_table w row column (mkItem (cell_text rows row column) NoBrush))
    as (w1 & Hset & Hframe1 & Hitems1); [done|].
  destruct (item_setBackground_Some w1 row column
              (colors !!! zone_of_position row)
              (mkItem (cell_text rows row column) NoBrush))
    as (w2 & Hbg & Hframe2 & Hitems2).
  { rewrite Hitems1. by rewrite decide_True. }
  exists w2. split_and!.
  - rewrite (bind_Ok _ _ w () w1) by done. rewrite <-Hbg.
    unfold zone_of_position. by repeat destruct (decide _).
  - by apply (same_frame_trans w w1 w2).
  - intros r c. rewrite Hitems2, Hitems1. by destruct (decide _).
Qed.

(** The [with] block of [load_output] always returns.  It gives the table
    one row per line and the columns of the longest line, fills every cell
    with the text of the file and the colour of the position of its row,
    and stores the boundaries of the split points 10, 20, 30 with the number
    of columns as the length. *)
Lemma load_output_with_block_result (rows : list (list string)) w :
  ∃ w', load_output_with_block colors rows w = Ok () w'
    ∧ rowCount (table_widget w') = Z.of_nat (length rows)
    ∧ columnCount (table_widget w') = len_column_of rows
    ∧ (∀ r c, in_table (table_widget w') r c →
         item (table_widget w') r c
         = Some (mkItem (cell_text rows r c)
                   (zone_brush colors (zone_of_position r))))
    ∧ color_info w' = setIndices 10 20 30 (len_column_of rows) (color_info w)
    ∧ input_layout w' = input_layout w.
Proof.
  unfold load_output_with_block. cbv zeta.
  fold (len_column_of rows).
  set (len_row := Z.of_nat (length rows)).
  set (len_column := len_column_of rows).
  destruct (setRowCount len_row w) as [[] wa|] eqn:Ha; [|done].
  destruct (setColumnCount len_column wa) as [[] wb|] eqn:Hb; [|done].
  assert (rowCount (table_widget wb) = len_row
          ∧ columnCount (table_widget wb) = len_column
          ∧ color_info wb = color_info w
          ∧ input_layout wb = input_layout w) as (Hrb & Hcb & Hib & Hlb).
  { unfold setRowCount, setColumnCount, with_table in Ha, Hb. by simplify_eq. }
  rewrite (bind_Ok _ _ w () wa) by done.
  rewrite (bind_Ok _ _ wa () wb) by done.
  destruct (for_paints (range 0 len_row)
              (λ row, for_ (range 0 len_column) (λ column,
                 setItem row column (mkItem (cell_text rows row column) NoBrush);;
                 if decide (row < 10)
                 then item_setBackground row column (colors !!! Core)
                 else if decide (row < 20)
                 then item_setBackground row column (colors !!! Inactive)
                 else if decide (row < 30)
                 then item_setBackground row column (colors !!! Active)
                 else item_setBackground row column (colors !!! Secondary)))
              (λ row r c, r = row ∧ 0 ≤ c < len_column)
              (λ r c it, it = mkItem (cell_text rows r c)
                                (zone_brush colors (zone_of_position r)))
              (λ _, True) wb)
    as (wc & Hloop & Hframe & _ & Hcells); [|done|].
  { intros row w1 Hrow Hframe1 _. apply elem_of_range in Hrow.
    destruct (for_paints (range 0 len_column)
                (λ column,
                   setItem row column (mkItem (cell_text rows row column) NoBrush);;
                   if decide (row < 10)
                   then item_setBackground row column (colors !!! Core)
                   else if decide (row < 20)
                   then item_setBackground row column (colors !!! Inactive)
                   else if decide (row < 30)
                   then item_setBackground row column (colors !!! Active)
                   else item_setBackground row column (colors !!! Secondary))
                (λ column r c, r = row ∧ c = column)
                (λ r c it, it = mkItem (cell_text rows r c)
                                  (zone_brush colors (zone_of_position r)))
                (λ _, True) w1)
      as (w2 & Hloop2 & Hframe2 & _ & Hcells2); [|done|].
    { intros column w3 Hcol Hframe3 _. apply elem_of_range in Hcol.
      destruct (load_output_cell rows w3 row column) as (w4 & Hcell & Hframe4 & Hitems).
      { apply (same_frame_in_table w1 w3); [done|].
        apply (same_frame_in_table wb w1); [done|].
        unfold in_table. lia. }
      exists w4. split_and!; [done..|].
      intros r c. rewrite Hitems. split.
      - intros [-> ->]. rewrite decide_True by done. by eexists.
      - intros HD. by rewrite decide_False. }
    exists w2. split_and!; [done..|].
    intros r c. destruct (Hcells2 r c) as [Hin Hout]. split.
    - intros [-> Hc]. apply Hin. exists c. split; [|done].
      apply elem_of_range. lia.
    - intros HD. apply Hout. intros column Hcol [-> ->].
      apply elem_of_range in Hcol. apply HD. split; [done|lia]. }
  rewrite (bind_Ok _ _ wb () wc) by done.
  destruct Hframe as (Hrc & Hcc & Hic & Hlc).
  eexists. split; [reflexivity|]. simpl.
  split_and!; [congruence|congruence| |congruence|congruence].
  intros r c Hin. unfold item in *. simpl.
  assert (in_table (table_widget wc) r c) as Hin'
    by (unfold in_table in *; simpl in Hin; done).
  destruct (Hcells r c) as [(it & Hit & ->) _].
  { exists r. unfold in_table in Hin'. split; [apply elem_of_range; lia|].
    split; [done|lia]. }
  unfold item in Hit. rewrite decide_True in Hit |- * by done. done.
Qed.

(** The table [load_output] builds is populated and its rows are each of one
    colour. *)
Lemma load_output_with_block_uniform (rows : list (list string)) w :
  ∃ w', load_output_with_block colors rows w = Ok () w'
        ∧ populated (table_widget w') ∧ row_uniform (table_widget w').
Proof.
  destruct (load_output_with_block_result rows w)
    as (w' & Hload & _ & _ & Hcells & _).
  exists w'. split_and!; [done|..].
  - intros r c Hin. rewrite Hcells by done. by eexists.
  - intros r c Hin.
    assert (in_table (table_widget w') r 0) as Hin0
      by (unfold in_table in *; lia).
    by rewrite !Hcells.
Qed.

Lemma setIndices_eq (a b c n : Z) (index_info : ZoneDict (Z * Z)) :
  setIndices a b c n index_info
  = mkZoneDict (0, a - 1) (a, b - 1) (b, c - 1) (c, n - 1).
Proof. done. Qed.

Lemma row_coloring_of_items t (brush_of : Z → QBrush QColor) :
  (∀ r, 0 ≤ r < rowCount t → background <$> item t r 0 = Some (brush_of r)) →
  row_coloring t = Some (brush_of <$> range 0 (rowCount t)).
Proof.
  intros Hrows. unfold row_coloring. apply mapM_Some, Forall2_fmap_r.
  apply Forall_Forall2_diag, Forall_forall. intros r Hr.
  apply elem_of_range in Hr. simpl. apply Hrows. lia.
Qed.

Lemma fmap_seqZ_const {A} (f : Z → A) (v : A) (m : Z) (n : nat) :
  (∀ r, m ≤ r < m + Z.of_nat n → f r = v) →
  f <$> seqZ m (Z.of_nat n) = replicate n v.
Proof.
  revert m. induction n as [|n IH]; intros m Hf; [done|].
  rewrite seqZ_cons by lia.
  replace (Z.pred (Z.of_nat (S n))) with (Z.of_nat n) by lia.
  simpl. rewrite Hf by lia. f_equal. apply IH. intros r Hr. apply Hf. lia.
Qed.

(** For 30 rows or more, the colouring by position is in zone order. *)
Lemma positional_zone_ordered (n : nat) :
  (30 ≤ n)%nat →
  (λ r, zone_brush colors (zone_of_position r)) <$> range 0 (Z.of_nat n)
  = zone_ordered colors 10 10 10 (n - 30).
Proof.
  intros Hn. unfold range, zone_ordered.
  replace (Z.of_nat n - 0)
    with (Z.of_nat 10 + (Z.of_nat 10 + (Z.of_nat 10 + Z.of_nat (n - 30)))) by lia.
  rewrite !seqZ_app, !fmap_app by lia.
  repeat f_equal; apply fmap_seqZ_const; intros r Hr;
    unfold zone_of_position; repeat case_decide; done || lia.
Qed.

(** The state a pass leaves for a colouring in zone order. *)
Lemma reconcile_zone_ordered w (n1 n2 n3 n4 : nat) :
  palette_distinct colors →
  row_coloring (table_widget w) = Some (zone_ordered colors n1 n2 n3 n4) →
  ∃ w', onTableWidgetColorChanged colors w = Ok () w'
    ∧ table_widget w' = table_widget w
    ∧ color_info w'
      = setIndices (Z.of_nat n1) (Z.of_nat (n1 + n2)) (Z.of_nat (n1 + n2 + n3))
          (rowCount (table_widget w)) (color_info w)
    ∧ input_layout w'
      = mkZoneDict (label_text Core (2 * Z.of_nat n1))
          (label_text Inactive (2 * Z.of_nat n2))
          (label_text Active (2 * Z.of_nat n3))
          (label_text Secondary (2 * Z.of_nat n4)).
Proof.
  intros Hd Hcs.
  destruct (scan_from colors 0 (zone_ordered colors n1 n2 n3 n4) scan_init)
    as [cc idx] eqn:Hscan.
  assert (scan_rows colors w = Ok (cc, idx) w) as Hrows
    by (rewrite <-Hscan; by apply scan_rows_coloring).
  pose proof (scanned_scan_from colors (zone_ordered colors n1 n2 n3 n4) Hd) as Hsc.
  rewrite Hscan in Hsc.
  destruct (rows_of_zone_ordered colors n1 n2 n3 n4 Hd) as (Hr1 & Hr2 & Hr3 & Hr4).
  destruct (first_seen_of_zone_ordered colors n1 n2 n3 n4 Hd) as (Hf2 & Hf3 & Hf4).
  destruct (Hsc Core) as [Hc1 _]. destruct (Hsc Inactive) as [Hc2 Hi2].
  destruct (Hsc Active) as [Hc3 Hi3]. destruct (Hsc Secondary) as [Hc4 Hi4].
  simpl in Hc1, Hc2, Hc3, Hc4, Hi2, Hi3, Hi4.
  rewrite Hr1 in Hc1. rewrite Hr2 in Hc2. rewrite Hr3 in Hc3. rewrite Hr4 in Hc4.
  pose proof (first_seen_of_unique colors _ _ _ _ Hi2 Hf2) as He2.
  pose proof (first_seen_of_unique colors _ _ _ _ Hi3 Hf3) as He3.
  pose proof (first_seen_of_unique colors _ _ _ _ Hi4 Hf4) as He4.
  exists (reconciled cc idx w).
  split_and!; [by apply reconcile_after_scan|done|..].
  - unfold reconciled. simpl. f_equal.
    + rewrite resolve_unset_Inactive, Hc1, (half_of_double _ (Z.of_nat n1)) by lia.
      rewrite He2. repeat case_decide; lia.
    + rewrite resolve_unset_Active, Hc1, Hc2,
        (half_of_double _ (Z.of_nat (n1 + n2))) by lia.
      rewrite He3. repeat case_decide; lia.
    + rewrite resolve_unset_Secondary, Hc1, Hc2, Hc3,
        (half_of_double _ (Z.of_nat (n1 + n2 + n3))) by lia.
      rewrite He4. repeat case_decide; lia.
  - unfold reconciled. simpl. by rewrite Hc1, Hc2, Hc3, Hc4.
Qed.

(** With 30 lines or more and a column, the pass that the signal at the end
    of [load_output] runs stores the split points 10, 20, 30 with the number
    of rows: the registry then holds (0, 9), (10, 19), (20, 29) and
    (30, rows - 1). *)
Lemma load_output_reconciled (rows : list (list string)) w :
  palette_distinct colors →
  (30 ≤ length rows)%nat →
  1 ≤ len_column_of rows →
  ∃ w', load_output colors rows w = Ok () w'
        ∧ rowCount (table_widget w') = Z.of_nat (length rows)
        ∧ color_info w'
          = mkZoneDict (0, 9) (10, 19) (20, 29) (30, Z.of_nat (length rows) - 1).
Proof.
  intros Hd Hrows Hcols.
  destruct (load_output_with_block_result rows w)
    as (w1 & Hload & Hr & Hc & Hcells & _).
  assert (row_coloring (table_widget w1)
          = Some (zone_ordered colors 10 10 10 (length rows - 30))) as Hcs.
  { rewrite <-positional_zone_ordered, <-Hr by done.
    apply row_coloring_of_items. intros r Hrow.
    rewrite Hcells; [done|]. unfold in_table. lia. }
  destruct (reconcile_zone_ordered w1 10 10 10 (length rows - 30) Hd Hcs)
    as (w2 & Hpass & Htable & Hinfo & _).
  exists w2. split_and!.
  - unfold load_output. rewrite (bind_Ok _ _ w () w1) by done.
    by apply colorChanged_emit_Ok.
  - by rewrite Htable.
  - rewrite Hinfo, setIndices_eq, Hr. done.
Qed.

End Painting.

(** ** The properties on the sample tables *)

Lemma sample_colors_distinct : palette_distinct sample_colors.
Proof. unfold palette_distinct. by apply (bool_decide_unpack _). Qed.

Lemma one_of_each_recognized : Forall (recognized sample_colors) one_of_each.
Proof.
  unfold one_of_each, zones. rewrite Forall_fmap.
  apply Forall_forall. intros z _. by exists z.
Qed.

Lemma scan_rows_first_seen_and_count_witness :
  ∃ color_count idx_start,
    scan_rows sample_colors (world_of_column one_of_each)
    = Ok (color_count, idx_start) (world_of_column one_of_each)
    ∧ ∀ z, first_seen_of sample_colors z one_of_each (idx_start !!! z)
           ∧ color_count !!! z = 2 * rows_of sample_colors z one_of_each.
Proof.
  apply (scan_rows_first_seen_and_count sample_colors
           (world_of_column one_of_each) one_of_each).
  - apply sample_colors_distinct.
  - reflexivity.
  - apply one_of_each_recognized.
Defined.

(** C2 as stated fails: an active row above an inactive row is a colouring
    of zone colours, and its split points are 1, 0, 2. *)
Lemma split_points_unordered_cex :
  ¬ ∀ (w : World string) (cs : list (QBrush string)) color_count idx_start,
      row_coloring (table_widget w) = Some cs →
      Forall (recognized sample_colors) cs →
      scan_rows sample_colors w = Ok (color_count, idx_start) w →
      let resolved := resolve_unset color_count idx_start in
      resolved !!! Inactive ≤ resolved !!! Active ≤ resolved !!! Secondary.
Proof.
  intros Hclaim.
  assert (Forall (recognized sample_colors) active_above_inactive) as Hrec.
  { repeat constructor; [by exists Active|by exists Inactive]. }
  pose proof (Hclaim (world_of_column active_above_inactive) active_above_inactive
                (mkZoneDict 0 2 2 0) (mkZoneDict (-1) 1 0 (-1))
                eq_refl Hrec eq_refl) as [Hle _].
  vm_compute in Hle. by apply Hle.
Qed.

Lemma split_points_zone_ordered_witness :
  ∃ color_count idx_start,
    scan_rows sample_colors (world_of_column (zone_ordered sample_colors 2 0 1 3))
    = Ok (color_count, idx_start)
        (world_of_column (zone_ordered sample_colors 2 0 1 3))
    ∧ let resolved := resolve_unset color_count idx_start in
      resolved !!! Inactive = Z.of_nat 2
      ∧ resolved !!! Active = Z.of_nat (2 + 0)
      ∧ resolved !!! Secondary = Z.of_nat (2 + 0 + 1)
      ∧ resolved !!! Inactive ≤ resolved !!! Active ≤ resolved !!! Secondary
      ∧ onTableWidgetColorChanged sample_colors
          (world_of_column (zone_ordered sample_colors 2 0 1 3))
        = Ok () (reconciled color_count idx_start
                   (world_of_column (zone_ordered sample_colors 2 0 1 3)))
      ∧ color_info (reconciled color_count idx_start
                      (world_of_column (zone_ordered sample_colors 2 0 1 3)))
        = setIndices (Z.of_nat 2) (Z.of_nat (2 + 0)) (Z.of_nat (2 + 0 + 1))
            (rowCount (table_widget
                         (world_of_column (zone_ordered sample_colors 2 0 1 3))))
            (color_info (world_of_column (zone_ordered sample_colors 2 0 1 3))).
Proof.
  apply (split_points_zone_ordered sample_colors
           (world_of_column (zone_ordered sample_colors 2 0 1 3)) 2 0 1 3).
  - apply sample_colors_distinct.
  - reflexivity.
Defined.

(** C5 as stated fails: for a table of one core row the label shows 2. *)
Lemma reconcile_labels_not_halved_cex :
  ¬ ∀ (w : World string) (cs : list (QBrush string)),
      row_coloring (table_widget w) = Some cs →
      ∀ z, input_layout (final_world (onTableWidgetColorChanged sample_colors w)) !!! z
           = label_text z (rows_of sample_colors z cs).
Proof.
  intros Hclaim.
  pose proof (Hclaim (world_of_column [zone_brush sample_colors Core])
                [zone_brush sample_colors Core] eq_refl Core) as Hlabel.
  vm_compute in Hlabel. discriminate Hlabel.
Qed.

Lemma reconcile_labels_doubled_witness :
  ∃ w', onTableWidgetColorChanged sample_colors (world_of_column one_of_each)
        = Ok () w'
        ∧ ∀ z, input_layout w' !!! z
               = label_text z (2 * rows_of sample_colors z one_of_each).
Proof.
  apply (reconcile_labels_doubled sample_colors
           (world_of_column one_of_each) one_of_each).
  - apply sample_colors_distinct.
  - reflexivity.
Defined.

Lemma other_color_unrecognized :
  ¬ recognized sample_colors (SolidBrush other_color).
Proof. intros [z Hz]. by destruct z. Qed.

(** C6 as stated fails: a pass over a table whose only row has a colour
    outside the palette returns normally. *)
Lemma reconcile_unrecognized_no_signal_cex :
  ¬ ∀ (w : World string) (cs : list (QBrush string)),
      row_coloring (table_widget w) = Some cs →
      Exists (λ b, ¬ recognized sample_colors b) cs →
      ∃ e w', onTableWidgetColorChanged sample_colors w = Raise e w'.
Proof.
  intros Hclaim.
  destruct (Hclaim (world_of_column [SolidBrush other_color])
              [SolidBrush other_color] eq_refl) as (e & w' & Hraise).
  - left. apply other_color_unrecognized.
  - vm_compute in Hraise. discriminate Hraise.
Qed.

Lemma reconcile_skips_unrecognized_witness :
  ∃ color_count idx_start,
    scan_rows sample_colors
      (world_of_column [zone_brush sample_colors Core; SolidBrush other_color])
    = Ok (color_count, idx_start)
        (world_of_column [zone_brush sample_colors Core; SolidBrush other_color])
    ∧ onTableWidgetColorChanged sample_colors
        (world_of_column [zone_brush sample_colors Core; SolidBrush other_color])
      = Ok () (reconciled color_count idx_start
                 (world_of_column
                    [zone_brush sample_colors Core; SolidBrush other_color]))
    ∧ (∀ row b st, ¬ recognized sample_colors b →
                   scan_step sample_colors row b st = st)
    ∧ (∀ z, color_count !!! z
            = 2 * rows_of sample_colors z
                    [zone_brush sample_colors Core; SolidBrush other_color]
            ∧ first_seen_of sample_colors z
                [zone_brush sample_colors Core; SolidBrush other_color]
                (idx_start !!! z))
    ∧ color_count !!! Core + color_count !!! Inactive
      + color_count !!! Active + color_count !!! Secondary
      < 2 * Z.of_nat (length [zone_brush sample_colors Core; SolidBrush other_color]).
Proof.
  apply (reconcile_skips_unrecognized sample_colors
           (world_of_column [zone_brush sample_colors Core; SolidBrush other_color])
           [zone_brush sample_colors Core; SolidBrush other_color]).
  - apply sample_colors_distinct.
  - reflexivity.
  - right. left. apply other_color_unrecognized.
Defined.

Lemma reconcile_empty_table_witness :
  onTableWidgetColorChanged sample_colors world_init
  = Ok () (mkWorld (table_widget world_init)
             (mkZoneDict (0, -1) (0, -1) (0, -1) (0, -1))
             (mkZoneDict "core: 0" "inactive: 0" "active: 0" "secondary: 0")).
Proof. apply (reconcile_empty_table sample_colors world_init). reflexivity. Defined.

Lemma world_of_column_populated_2 b1 b2 :
  populated (table_widget (world_of_column [b1; b2])).
Proof.
  intros row column [Hrow Hcolumn]. simpl in Hrow, Hcolumn.
  assert (column = 0) as -> by lia.
  assert (row = 0 ∨ row = 1) as [-> | ->] by lia; by eexists.
Qed.

Lemma change_background_color_rows_witness :
  let w := world_of_column active_above_inactive in
  let t := table_widget w in
  let t' := table_widget
              (final_world (change_background_color sample_colors [(1, 0)]
                              (sample_colors !!! Active) w)) in
  rowCount t' = rowCount t
  ∧ columnCount t' = columnCount t
  ∧ populated t'
  ∧ (∀ row column, row ∈ (fst <$> [(1, 0)]) → in_table t row column →
       background <$> item t' row column
       = Some (SolidBrush (sample_colors !!! Active)))
  ∧ (∀ row column, row ∉ (fst <$> [(1, 0)]) →
       item t' row column = item t row column)
  ∧ (row_uniform t → row_uniform t').
Proof.
  apply (change_background_color_rows sample_colors
           (world_of_column active_above_inactive) [(1, 0)]
           (sample_colors !!! Active)).
  - apply world_of_column_populated_2.
  - intros ix Hix. apply list_elem_of_singleton in Hix as ->.
    unfold in_table. simpl. lia.
Defined.

(** C7 fails on the code.  [load_output] hands [setIndices] the number of
    columns as the length.  For a file of 30 empty lines the table has 30
    rows and no column, and the state [load_output] leaves holds (30, -1)
    for the secondary zone, where the last row is 29: the pass run by the
    signal cannot read column 0 and stores nothing.  For a file of 40 lines
    of 5 fields the call in [load_output] stores (30, 4), where the last row
    is 39, and it is that pass, with its own call of [setIndices], that then
    stores (30, 39). *)
Theorem load_output_secondary_last_from_columns :
  rowCount (table_widget
              (final_world (load_output sample_colors file_30_empty world_init)))
  = 30
  ∧ color_info (final_world (load_output sample_colors file_30_empty world_init))
    = mkZoneDict (0, 9) (10, 19) (20, 29) (30, -1)
  ∧ color_info
      (final_world (load_output_with_block sample_colors file_40x5 world_init))
    = mkZoneDict (0, 9) (10, 19) (20, 29) (30, 4)
  ∧ color_info (final_world (load_output sample_colors file_40x5 world_init))
    = mkZoneDict (0, 9) (10, 19) (20, 29) (30, 39).
Proof. split_and!; by vm_compute. Qed.

(** The colouring of the counterexample to C2 arises in the program: in the
    table loaded from [file_40x5], rows 5 and 19 selected together are
    offered the action active, row 19 being the last inactive row; after the
    action the registry holds (10, 4) for inactive and (5, 29) for active. *)
Example split_points_unordered_reached :
  let w1 := final_world (load_output sample_colors file_40x5 world_init) in
  let w2 := final_world (change_background_color sample_colors [(5, 0); (19, 0)]
                           (sample_colors !!! Active) w1) in
  show_context_menu [(5, 5); (19, 19)] w1 = Ok [Active] w1
  ∧ color_info w2 = mkZoneDict (0, 9) (10, 4) (5, 29) (30, 39).
Proof. split; by vm_compute. Qed.

(** * Further properties *)

(** ** ColorInfo.setIndices *)

(** X4.  The sizes of the four stored ranges add up to the length handed to
    [setIndices], for any split points and any length, ordered or not.  When
    the split points satisfy [0 ≤ a ≤ b ≤ c ≤ n], every row of the table
    lies in the stored range of one zone and of no other, and no other row
    lies in any stored range. *)
Theorem setIndices_partition (a b c n : Z) (index_info : ZoneDict (Z * Z)) :
  let stored := setIndices a b c n index_info in
  stored_size stored Core + stored_size stored Inactive
  + stored_size stored Active + stored_size stored Secondary = n
  ∧ (0 ≤ a → a ≤ b → b ≤ c → c ≤ n →
     (∀ i, 0 ≤ i < n →
        ∃ z, in_stored_range stored z i
             ∧ ∀ z', in_stored_range stored z' i → z' = z)
     ∧ (∀ i z, in_stored_range stored z i → 0 ≤ i < n)).
Proof.
  intros stored. subst stored.
  unfold stored_size, in_stored_range. split; [simpl; lia|].
  intros Ha Hab Hbc Hcn. split.
  - intros i Hi.
    destruct (decide (i < a)); [|destruct (decide (i < b)); [|destruct (decide (i < c))]].
    + exists Core. split; [simpl; lia|]. intros z'. destruct z'; simpl; [done|lia..].
    + exists Inactive. split; [simpl; lia|]. intros z'. destruct z'; simpl; [lia|done|lia..].
    + exists Active. split; [simpl; lia|]. intros z'. destruct z'; simpl; [lia|lia|done|lia].
    + exists Secondary. split; [simpl; lia|]. intros z'. destruct z'; simpl; [lia..|done].
  - intros i z. destruct z; simpl; lia.
Qed.

Lemma setIndices_partition_witness :
  let stored := setIndices 10 10 30 40 index_info_init in
  stored_size stored Core + stored_size stored Inactive
  + stored_size stored Active + stored_size stored Secondary = 40
  ∧ (∀ i, 0 ≤ i < 40 →
       ∃ z, in_stored_range stored z i
            ∧ ∀ z', in_stored_range stored z' i → z' = z)
  ∧ (∀ i z, in_stored_range stored z i → 0 ≤ i < 40).
Proof.
  intros stored.
  destruct (setIndices_partition 10 10 30 40 index_info_init) as [Hsum Hrows].
  split; [exact Hsum|]. apply Hrows; lia.
Defined.

(** ** TableWidget.show_context_menu *)

(** X8.  The rows collected from the selected ranges are exactly the rows
    that lie between the top and the bottom row of one of the ranges; a range
    whose bottom row is above its top row adds nothing. *)
Theorem selected_rows_of_ranges (ranges : list (Z * Z)) (i : Z) :
  i ∈ selected_rows_of ranges ↔ ∃ r, r ∈ ranges ∧ r.1 ≤ i ≤ r.2.
Proof. apply elem_of_selected_rows_of. Qed.

(** X6.  With the registry as the class body creates it (all pairs
    (-1, -1)), no action is added to the menu for any selection of rows of a
    table, whose indexes are not negative. *)
Theorem color_options_before_load (selection : gset Z) :
  (∀ i, i ∈ selection → 0 ≤ i) →
  color_options selection index_info_init = [].
Proof.
  intros Hsel.
  assert (-1 ∉ selection) as Hno by (intros Hin; apply Hsel in Hin; lia).
  unfold color_options. simpl.
  repeat destruct (decide _); try done; exfalso; tauto.
Qed.

Lemma color_options_before_load_witness :
  color_options {[ 0; 3; 7 ]} index_info_init = [].
Proof.
  apply (color_options_before_load {[ 0; 3; 7 ]}).
  intros i Hi. apply elem_of_union in Hi as [Hi|Hi];
    [apply elem_of_union in Hi as [Hi|Hi]|]; apply elem_of_singleton in Hi; lia.
Defined.

(** X7.  With boundaries stored for split points [0 ≤ a ≤ b ≤ c ≤ n], a
    selection all of whose rows lie strictly between the first and the last
    row of one zone is offered no action at all. *)
Theorem color_options_interior (a b c n : Z) (index_info : ZoneDict (Z * Z))
    (selection : gset Z) (z : Zone) :
  0 ≤ a → a ≤ b → b ≤ c → c ≤ n →
  let stored := setIndices a b c n index_info in
  (∀ i, i ∈ selection → (stored !!! z).1 < i < (stored !!! z).2) →
  color_options selection stored = [].
Proof.
  intros Ha Hab Hbc Hcn stored Hsel. subst stored.
  unfold color_options. simpl.
  repeat destruct (decide _); try done; exfalso;
    repeat match goal with
      | H : _ ∨ _ |- _ => destruct H
      | H : _ ∈ selection |- _ => apply Hsel in H
      end;
    destruct z; simpl in *; lia.
Qed.

Lemma color_options_interior_witness :
  let stored := setIndices 10 20 30 40 index_info_init in
  color_options {[ 12; 15 ]} stored = [].
Proof.
  apply (color_options_interior 10 20 30 40 index_info_init {[ 12; 15 ]} Inactive);
    try lia.
  intros i Hi. apply elem_of_union in Hi as [Hi|Hi];
    apply elem_of_singleton in Hi; subst i; simpl; lia.
Defined.

(** ** WidgetController.onTableWidgetColorChanged *)

Section ReconcileMore.

Context {QColor : Type} `{EqDecision QColor}.
Variable colors : ZoneDict QColor.

Implicit Types (w : World QColor) (t : QTableWidget QColor).
Implicit Types (b : QBrush QColor) (cs : list (QBrush QColor)).

Lemma row_coloring_is_Some t :
  is_Some (row_coloring t)
  ↔ ∀ row, 0 ≤ row < rowCount t → is_Some (item t row 0).
Proof.
  unfold row_coloring. rewrite mapM_is_Some, Forall_forall. split.
  - intros Hrows row Hrow.
    assert (row ∈ range 0 (rowCount t)) as Hin by (apply elem_of_range; lia).
    apply Hrows in Hin. simpl in Hin. by apply fmap_is_Some in Hin.
  - intros Hrows row Hrow. apply elem_of_range in Hrow. simpl.
    apply fmap_is_Some, Hrows. lia.
Qed.

Lemma row_coloring_None t :
  row_coloring t = None
  ↔ ∃ row, 0 ≤ row < rowCount t ∧ item t row 0 = None.
Proof.
  rewrite eq_None_not_Some, row_coloring_is_Some. split.
  - intros Hnot.
    destruct (decide (Exists (λ row, item t row 0 = None) (range 0 (rowCount t))))
      as [Hex|Hnex].
    + apply Exists_exists in Hex as (row & Hrow & Hnone).
      apply elem_of_range in Hrow. exists row. split; [lia|done].
    + destruct Hnot. intros row Hrow.
      destruct (item t row 0) as [it|] eqn:Hit; [by eexists|].
      destruct Hnex. apply Exists_exists. exists row. split; [|done].
      apply elem_of_range. lia.
  - intros (row & Hrow & Hnone) Hall.
    destruct (Hall row Hrow) as [it Hit]. congruence.
Qed.

Lemma for_fold_scan_None (rows : list Z) st w :
  mapM (λ row, background <$> item (table_widget w) row 0) rows = None →
  for_fold rows
    (λ row st, color ← item_background row 0; mret (scan_step colors row color st))
    st w
  = Raise AttributeError w.
Proof.
  revert st. induction rows as [|row rows IH]; intros st Hnone; [done|].
  simpl. destruct (item (table_widget w) row 0) as [it|] eqn:Hit.
  - rewrite (bind_Ok _ _ w (scan_step colors row (background it) st) w).
    + apply IH. destruct (mapM _ rows) as [cs|] eqn:Hcs; [|done].
      assert (mapM (λ row, background <$> item (table_widget w) row 0) (row :: rows)
              = Some (background it :: cs)) as Hsome.
      { apply mapM_Some. constructor; [by rewrite Hit|by apply mapM_Some]. }
      congruence.
    + rewrite (bind_Ok _ _ w (background it) w); [done|].
      by apply item_background_Some.
  - rewrite (bind_Raise _ _ w AttributeError w); [done|].
    apply bind_Raise. by apply item_background_None.
Qed.

Lemma scan_rows_missing w :
  row_coloring (table_widget w) = None →
  scan_rows colors w = Raise AttributeError w.
Proof.
  intros Hnone. unfold scan_rows. rewrite (bind_Ok _ _ w w w) by done.
  by apply for_fold_scan_None.
Qed.

(** The outcome of a pass, by the colouring of the table. *)
Lemma reconcile_outcome w :
  onTableWidgetColorChanged colors w
  = match row_coloring (table_widget w) with
    | Some cs =>
        Ok () (reconciled (scan_from colors 0 cs scan_init).1
                 (scan_from colors 0 cs scan_init).2 w)
    | None => Raise AttributeError w
    end.
Proof.
  destruct (row_coloring (table_widget w)) as [cs|] eqn:Hcs.
  - apply reconcile_after_scan. rewrite <-surjective_pairing.
    by apply scan_rows_coloring.
  - apply reconcile_raises_after_scan. by apply scan_rows_missing.
Qed.

(** X3.  A pass raises exactly when some row of the table has no item in
    column 0 (as in a table with rows and no column); the exception is
    [AttributeError], and the registry and the labels are then as they were.
    In all other cases it returns normally. *)
Theorem reconcile_raises_iff_missing_item w :
  (onTableWidgetColorChanged colors w = Raise AttributeError w
   ↔ ∃ row, 0 ≤ row < rowCount (table_widget w)
            ∧ item (table_widget w) row 0 = None)
  ∧ ((∃ w', onTableWidgetColorChanged colors w = Ok () w')
     ↔ ∀ row, 0 ≤ row < rowCount (table_widget w)
              → is_Some (item (table_widget w) row 0))
  ∧ ∀ e w', onTableWidgetColorChanged colors w = Raise e w' → w' = w.
Proof.
  rewrite reconcile_outcome, <-row_coloring_None, <-row_coloring_is_Some.
  destruct (row_coloring (table_widget w)) as [cs|]; split_and!.
  - split; intros; done.
  - split; [by eexists|]. intros _. by eexists.
  - intros e w' Heq. by simplify_eq.
  - split; done.
  - split; [by intros [w' ?]|]. by intros [cs ?].
  - intros e w' Heq. by simplify_eq.
Qed.

(** X1.  A second pass right after a pass changes nothing: it has the
    outcome of the first one, with the same registry and labels. *)
Theorem reconcile_idempotent w :
  onTableWidgetColorChanged colors
    (final_world (onTableWidgetColorChanged colors w))
  = onTableWidgetColorChanged colors w.
Proof.
  rewrite (reconcile_outcome w).
  destruct (row_coloring (table_widget w)) as [cs|] eqn:Hcs; simpl.
  - rewrite reconcile_outcome. simpl. by rewrite Hcs.
  - rewrite reconcile_outcome. by rewrite Hcs.
Qed.

(** X2.  A pass that returns writes the registry and the labels from the
    table alone: from two states with the same table it leaves the same
    registry and the same labels, whatever they held before. *)
Theorem reconcile_overwrites w1 w2 cs :
  table_widget w1 = table_widget w2 →
  row_coloring (table_widget w1) = Some cs →
  ∃ w1' w2',
    onTableWidgetColorChanged colors w1 = Ok () w1'
    ∧ onTableWidgetColorChanged colors w2 = Ok () w2'
    ∧ color_info w2' = color_info w1'
    ∧ input_layout w2' = input_layout w1'.
Proof.
  intros Ht Hcs. rewrite !reconcile_outcome, <-Ht, Hcs.
  do 2 eexists. split_and!; [done|done|..].
  - simpl. by rewrite <-Ht.
  - done.
Qed.

(** The zone of the row at an index of a colouring in zone order. *)
Lemma zone_ordered_lookup (n1 n2 n3 n4 i : nat) b :
  zone_ordered colors n1 n2 n3 n4 !! i = Some b →
  (i < n1)%nat ∧ b = zone_brush colors Core
  ∨ (n1 ≤ i < n1 + n2)%nat ∧ b = zone_brush colors Inactive
  ∨ (n1 + n2 ≤ i < n1 + n2 + n3)%nat ∧ b = zone_brush colors Active
  ∨ (n1 + n2 + n3 ≤ i < n1 + n2 + n3 + n4)%nat ∧ b = zone_brush colors Secondary.
Proof.
  unfold zone_ordered. rewrite !lookup_app_Some, !lookup_replicate, !length_replicate.
  intros [[-> Hi]|[H1 [[-> Hi]|[H2 [[-> Hi]|[H3 [-> Hi]]]]]]].
  - by left.
  - right. left. split; [lia|done].
  - right. right. left. split; [lia|done].
  - right. right. right. split; [lia|done].
Qed.

(** X5.  When column 0 of a table shows a colouring in zone order ([n1]
    core, [n2] inactive, [n3] active, [n4] secondary rows, of four different
    colours), a pass stores ranges that describe the colouring: a row lies
    in the stored range of a zone exactly when it has the colour of that
    zone, and every label shows twice the size of the stored range of its
    zone. *)
Theorem reconcile_ranges_zone_ordered w (n1 n2 n3 n4 : nat) :
  palette_distinct colors →
  0 ≤ rowCount (table_widget w) →
  row_coloring (table_widget w) = Some (zone_ordered colors n1 n2 n3 n4) →
  ∃ w', onTableWidgetColorChanged colors w = Ok () w'
    ∧ (∀ (i : nat) b z,
         zone_ordered colors n1 n2 n3 n4 !! i = Some b →
         in_stored_range (color_info w') z (Z.of_nat i) ↔ b = zone_brush colors z)
    ∧ ∀ z, input_layout w' !!! z
           = label_text z (2 * stored_size (color_info w') z).
Proof.
  intros Hd Hrows Hcs.
  destruct (reconcile_zone_ordered colors w n1 n2 n3 n4 Hd Hcs)
    as (w' & Hpass & _ & Hinfo & Hlabels).
  apply row_coloring_length in Hcs as Hlen.
  unfold zone_ordered in Hlen. rewrite !length_app, !length_replicate in Hlen.
  exists w'. split_and!; [done|..].
  - intros i b z Hi. rewrite Hinfo. unfold in_stored_range.
    apply zone_ordered_lookup in Hi
      as [[Hi ->]|[[Hi ->]|[[Hi ->]|[Hi ->]]]];
      (split;
       [intros Hz; destruct z; simpl in Hz; done || lia
       |intros Hz; apply (carries_inj colors _ z _ Hd eq_refl) in Hz;
        subst z; simpl; lia]).
  - intros z. rewrite Hlabels, Hinfo. unfold stored_size.
    destruct z; simpl; f_equal; lia.
Qed.

End ReconcileMore.

(** ** TableWidget.change_background_color *)

Section PaintingMore.

Context {QColor : Type} `{EqDecision QColor}.
Variable colors : ZoneDict QColor.

Implicit Types (w : World QColor) (t : QTableWidget QColor).
Implicit Types (b : QBrush QColor) (cs : list (QBrush QColor)).

(** Recolouring one row, cell by cell: the items of the row keep their text
    and get the colour, the other rows stay as they are. *)
Lemma change_selected_rows_background_color_exact w row (color : QColor) :
  0 ≤ row < rowCount (table_widget w) →
  populated (table_widget w) →
  ∃ w', change_selected_rows_background_color row color w = Ok () w'
    ∧ same_frame w w'
    ∧ ∀ r c, item (table_widget w') r c
             = if decide (r = row) then repaint color <$> item (table_widget w) r c
               else item (table_widget w) r c.
Proof.
  intros Hrow Hpop.
  destruct (for_paints (range 0 (columnCount (table_widget w)))
              (λ column, item_setBackground row column color)
              (λ column r c, r = row ∧ c = column)
              (λ r c it, repaint color <$> item (table_widget w) r c = Some it)
              (λ w1, populated (table_widget w1) ∧ same_texts w w1) w)
    as (w' & Hloop & Hframe & _ & Hcells); [|done|].
  { intros column w1 Hcol Hframe1 [Hpop1 Htext1]. apply elem_of_range in Hcol.
    destruct (Hpop1 row column) as [it Hit].
    { apply (same_frame_in_table w w1); [done|]. unfold in_table. lia. }
    destruct (item_setBackground_Some w1 row column color it Hit)
      as (w2 & Hset & Hframe2 & Hitems).
    exists w2. split_and!; [done|done|..].
    - apply (populated_same_frame w1 w2); [done| |done].
      intros r c Hsome. rewrite Hitems. by destruct (decide _).
    - intros r c. rewrite Hitems, <-Htext1.
      destruct (decide _) as [[-> ->]|]; [|done]. by rewrite Hit.
    - intros r c. rewrite Hitems. split.
      + intros [-> ->]. rewrite decide_True by done.
        exists (mkItem (text it) (SolidBrush color)). split; [done|].
        pose proof (Htext1 row column) as Ht. rewrite Hit in Ht.
        destruct (item (table_widget w) row column) as [it0|]; [|done].
        simpl in Ht |- *. injection Ht as Ht. unfold repaint. by rewrite Ht.
      + intros HD. by rewrite decide_False by done. }
  exists w'. split_and!; [|done|].
  - unfold change_selected_rows_background_color.
    by rewrite (bind_Ok _ _ w w w) by done.
  - intros r c. destruct (Hcells r c) as [Hin Hout].
    destruct (decide (r = row)) as [->|Hne].
    + destruct (decide (0 ≤ c < columnCount (table_widget w))) as [Hc|Hc].
      * destruct Hin as (it & -> & Hit); [|done].
        exists c. split; [|done]. apply elem_of_range. lia.
      * rewrite Hout.
        -- unfold item. rewrite decide_False; [done|]. by intros [_ ?].
        -- intros column Hcol [_ ->]. apply elem_of_range in Hcol. lia.
    + apply Hout. by intros column _ [? _].
Qed.

(** Recolouring the rows of a list that has each row once. *)
Lemma change_background_color_loop_exact w (rows : list Z) (color : QColor) :
  NoDup rows →
  (∀ row, row ∈ rows → 0 ≤ row < rowCount (table_widget w)) →
  populated (table_widget w) →
  ∃ w', for_ rows (λ row, change_selected_rows_background_color row color) w
        = Ok () w'
    ∧ same_frame w w' ∧ populated (table_widget w')
    ∧ ∀ r c, item (table_widget w') r c
             = if decide (r ∈ rows) then repaint color <$> item (table_widget w) r c
               else item (table_widget w) r c.
Proof.
  revert w. induction rows as [|row rows IH]; intros w Hnd Hrows Hpop.
  - exists w. split_and!; [done|apply same_frame_refl|done|].
    intros r c. rewrite decide_False; [done|]. apply not_elem_of_nil.
  - apply NoDup_cons in Hnd as [Hrow Hnd].
    destruct (change_selected_rows_background_color_exact w row color)
      as (w1 & Hone & Hframe1 & Hitems1); [apply Hrows; by left|done|].
    assert (populated (table_widget w1)) as Hpop1.
    { apply (populated_same_frame w w1); [done| |done].
      intros r c Hsome. rewrite Hitems1. destruct (decide _); [|done].
      by apply fmap_is_Some. }
    destruct (IH w1) as (w' & Hrest & Hframe' & Hpop' & Hitems'); [done| |done|].
    { intros r Hr. destruct Hframe1 as (-> & _). apply Hrows. by right. }
    exists w'. split_and!.
    + by rewrite (for__cons row rows _ w w1).
    + by apply (same_frame_trans w w1 w').
    + done.
    + intros r c. rewrite Hitems', Hitems1.
      destruct (decide (r = row)) as [->|Hne].
      * rewrite (decide_False (P := row ∈ rows)) by done.
        rewrite decide_True; [done|by left].
      * destruct (decide (r ∈ rows)) as [Hr|Hr].
        -- rewrite decide_True; [done|by right].
        -- rewrite decide_False; [done|].
           intros Hin. apply elem_of_cons in Hin as [?|?]; done.
Qed.

(** The cells after [change_background_color], whatever the pass it ends
    with does. *)
Lemma change_background_color_items w (indexes : list (Z * Z)) (color : QColor) :
  populated (table_widget w) →
  (∀ ix, ix ∈ indexes → in_table (table_widget w) ix.1 ix.2) →
  ∃ w1,
    for_ (elements (list_to_set (fst <$> indexes) : gset Z))
      (λ row, change_selected_rows_background_color row color) w = Ok () w1
    ∧ same_frame w w1 ∧ populated (table_widget w1)
    ∧ ∀ r c, item (table_widget w1) r c
             = if decide (r ∈ (fst <$> indexes))
               then repaint color <$> item (table_widget w) r c
               else item (table_widget w) r c.
Proof.
  intros Hpop Hix.
  destruct (change_background_color_loop_exact w
              (elements (list_to_set (fst <$> indexes) : gset Z)) color)
    as (w1 & Hloop & Hframe & Hpop1 & Hitems); [apply NoDup_elements| |done|].
  { intros row Hrow. apply elem_of_elements, elem_of_list_to_set in Hrow.
    apply list_elem_of_fmap in Hrow as (ix & -> & Hin).
    by destruct (Hix ix Hin). }
  exists w1. split_and!; [done..|].
  intros r c. rewrite Hitems.
  destruct (decide (r ∈ elements _)) as [Hr|Hr];
    rewrite elem_of_elements, elem_of_list_to_set in Hr.
  - by rewrite decide_True.
  - by rewrite decide_False.
Qed.

(** X9.  On a populated table and for selected indexes inside it,
    [change_background_color] changes brushes only: every cell keeps its
    text, the cells of the selected rows get a solid brush of the colour,
    the cells of the other rows keep their item, and the table keeps its
    dimensions. *)
Theorem change_background_color_keeps_texts w (indexes : list (Z * Z)) (color : QColor) :
  populated (table_widget w) →
  (∀ ix, ix ∈ indexes → in_table (table_widget w) ix.1 ix.2) →
  let t := table_widget w in
  let t' := table_widget (final_world (change_background_color colors indexes color w)) in
  rowCount t' = rowCount t
  ∧ columnCount t' = columnCount t
  ∧ (∀ r c, text <$> item t' r c = text <$> item t r c)
  ∧ ∀ r c, item t' r c
           = if decide (r ∈ (fst <$> indexes)) then repaint color <$> item t r c
             else item t r c.
Proof.
  intros Hpop Hix t t'.
  destruct (change_background_color_items w indexes color Hpop Hix)
    as (w1 & Hloop & (Hr & Hc & _) & _ & Hitems).
  assert (t' = table_widget w1) as ->.
  { subst t'. unfold change_background_color.
    rewrite (bind_Ok _ _ w () w1) by done. apply colorChanged_emit_table. }
  subst t. split_and!; [done|done| |done].
  intros r c. rewrite Hitems. destruct (decide _); [|done].
  by destruct (item (table_widget w) r c).
Qed.

(** A colouring is the colouring of a table when it has one brush per row,
    the brush of the item in column 0. *)
Lemma row_coloring_lookup t cs :
  row_coloring t = Some cs
  ↔ length cs = Z.to_nat (rowCount t)
    ∧ ∀ (i : nat) b, cs !! i = Some b →
        background <$> item t (Z.of_nat i) 0 = Some b.
Proof.
  unfold row_coloring, range.
  rewrite mapM_Some, Forall2_same_length_lookup, length_seqZ.
  replace (Z.to_nat (rowCount t - 0)) with (Z.to_nat (rowCount t)) by lia.
  split.
  - intros [Hlen Hrows]. split; [done|]. intros i b Hb.
    apply (Hrows i (Z.of_nat i) b); [|done].
    apply lookup_seqZ. apply lookup_lt_Some in Hb. lia.
  - intros [Hlen Hrows]. split; [done|]. intros i row b Hrow Hb.
    apply lookup_seqZ in Hrow as [-> _]. rewrite Z.add_0_l. by apply Hrows.
Qed.

(** The labels after a pass show twice the numbers of rows. *)
Lemma reconcile_counts w cs :
  palette_distinct colors →
  row_coloring (table_widget w) = Some cs →
  ∃ w', onTableWidgetColorChanged colors w = Ok () w'
        ∧ table_widget w' = table_widget w
        ∧ ∀ z, input_layout w' !!! z = label_text z (2 * rows_of colors z cs).
Proof.
  intros Hd Hcs. rewrite reconcile_outcome, Hcs.
  eexists. split_and!; [done..|].
  intros z. rewrite reconciled_labels. f_equal.
  by destruct (scanned_scan_from colors cs Hd z) as [-> _].
Qed.

(** The colouring after the rows of the selected indexes got a colour. *)
Lemma row_coloring_recolored w w1 (indexes : list (Z * Z)) (color : QColor) cs :
  same_frame w w1 →
  (∀ r c, item (table_widget w1) r c
          = if decide (r ∈ (fst <$> indexes))
            then repaint color <$> item (table_widget w) r c
            else item (table_widget w) r c) →
  row_coloring (table_widget w) = Some cs →
  row_coloring (table_widget w1)
  = Some (recolor_rows (list_to_set (fst <$> indexes)) color cs).
Proof.
  intros (Hr & _) Hitems Hcs.
  apply row_coloring_lookup in Hcs as [Hlen Hrows].
  apply row_coloring_lookup. unfold recolor_rows. rewrite length_imap, Hr.
  split; [done|]. intros i b Hb.
  rewrite list_lookup_imap in Hb.
  destruct (cs !! i) as [b0|] eqn:Hb0; [|done]. simpl in Hb.
  apply Hrows in Hb0. rewrite Hitems.
  destruct (item (table_widget w) (Z.of_nat i) 0) as [it|]; [|done].
  simpl in Hb0.
  destruct (decide (Z.of_nat i ∈ (list_to_set (fst <$> indexes) : gset Z)))
    as [Hin|Hin]; rewrite elem_of_list_to_set in Hin.
  - rewrite decide_True by done. by simplify_eq.
  - rewrite decide_False by done. by simplify_eq.
Qed.

(** X10.  On a populated table whose column 0 shows the colouring [cs], and
    for selected indexes inside the table, [change_background_color] returns
    normally; the table then shows [cs] with the selected rows in the new
    colour, and the labels show twice the numbers of rows of that colouring
    (the four colours of the palette being different). *)
Theorem change_background_color_reconciles w (indexes : list (Z * Z))
    (color : QColor) cs :
  palette_distinct colors →
  populated (table_widget w) →
  (∀ ix, ix ∈ indexes → in_table (table_widget w) ix.1 ix.2) →
  row_coloring (table_widget w) = Some cs →
  ∃ w', change_background_color colors indexes color w = Ok () w'
    ∧ row_coloring (table_widget w')
      = Some (recolor_rows (list_to_set (fst <$> indexes)) color cs)
    ∧ ∀ z, input_layout w' !!! z
           = label_text z
               (2 * rows_of colors z
                      (recolor_rows (list_to_set (fst <$> indexes)) color cs)).
Proof.
  intros Hd Hpop Hix Hcs.
  destruct (change_background_color_items w indexes color Hpop Hix)
    as (w1 & Hloop & Hframe & _ & Hitems).
  pose proof (row_coloring_recolored w w1 indexes color cs Hframe Hitems Hcs) as Hcs1.
  destruct (reconcile_counts w1 _ Hd Hcs1) as (w' & Hpass & Htable & Hlabels).
  exists w'. split_and!; [|by rewrite Htable|done].
  unfold change_background_color. rewrite (bind_Ok _ _ w () w1) by done.
  by apply colorChanged_emit_Ok.
Qed.

End PaintingMore.

(** ** Moving a boundary from the menu *)

Section BoundaryMoves.

Context {QColor : Type} `{EqDecision QColor}.
Variable colors : ZoneDict QColor.

Implicit Types (w : World QColor) (t : QTableWidget QColor).
Implicit Types (b : QBrush QColor) (cs : list (QBrush QColor)).
Implicit Types (n : ZoneDict nat) (bd : Boundary).

Lemma lookup_replicate_app {A} (x : A) (k : nat) (l : list A) (i : nat) :
  (replicate k x ++ l) !! i
  = if decide (i < k)%nat then Some x else l !! (i - k)%nat.
Proof.
  destruct (decide (i < k)%nat) as [Hi|Hi].
  - rewrite lookup_app_l by (by rewrite length_replicate).
    by apply lookup_replicate_2.
  - rewrite lookup_app_r by (rewrite length_replicate; lia).
    by rewrite length_replicate.
Qed.

Lemma zone_ordered_of_lookup n (i : nat) :
  zone_ordered_of colors n !! i
  = if decide (i < zone_start n Inactive)%nat then Some (zone_brush colors Core)
    else if decide (i < zone_start n Active)%nat then Some (zone_brush colors Inactive)
    else if decide (i < zone_start n Secondary)%nat then Some (zone_brush colors Active)
    else if decide (i < zone_start n Secondary + n !!! Secondary)%nat
         then Some (zone_brush colors Secondary)
    else None.
Proof.
  unfold zone_ordered_of, zone_ordered, zone_start.
  rewrite !lookup_replicate_app.
  repeat case_decide; try done; try lia.
  - apply lookup_replicate_2. lia.
  - apply lookup_replicate_None. lia.
Qed.

Lemma recolor_rows_lookup (rows : gset Z) (color : QColor) cs (i : nat) :
  recolor_rows rows color cs !! i
  = (λ b, if decide (Z.of_nat i ∈ rows) then SolidBrush color else b) <$> cs !! i.
Proof. unfold recolor_rows. apply list_lookup_imap. Qed.

Lemma recolor_grow_down bd (k : nat) n (rows : gset Z) :
  (k ≤ n !!! below bd)%nat →
  (∀ r, r ∈ rows
        ↔ Z.of_nat (zone_start n (below bd)) ≤ r
          < Z.of_nat (zone_start n (below bd) + k)) →
  recolor_rows rows (colors !!! above bd) (zone_ordered_of colors n)
  = zone_ordered_of colors (grow_down bd k n).
Proof.
  intros Hk Hrows. apply list_eq. intros i.
  rewrite recolor_rows_lookup, !zone_ordered_of_lookup.
  destruct (decide (Z.of_nat i ∈ rows)) as [Hin|Hin]; rewrite Hrows in Hin;
    destruct n as [n1 n2 n3 n4]; destruct bd; unfold zone_start in *;
    simpl in *; repeat case_decide; simpl; done || lia.
Qed.

Lemma recolor_grow_up bd (k : nat) n (rows : gset Z) :
  (k ≤ n !!! above bd)%nat →
  (∀ r, r ∈ rows
        ↔ Z.of_nat (zone_start n (below bd) - k) ≤ r
          < Z.of_nat (zone_start n (below bd))) →
  recolor_rows rows (colors !!! below bd) (zone_ordered_of colors n)
  = zone_ordered_of colors (grow_up bd k n).
Proof.
  intros Hk Hrows. apply list_eq. intros i.
  rewrite recolor_rows_lookup, !zone_ordered_of_lookup.
  destruct (decide (Z.of_nat i ∈ rows)) as [Hin|Hin]; rewrite Hrows in Hin;
    destruct n as [n1 n2 n3 n4]; destruct bd; unfold zone_start in *;
    simpl in *; repeat case_decide; simpl; done || lia.
Qed.

(** The first row of the zone below a boundary offers the zone above, the
    last row of the zone above offers the zone below. *)
Lemma color_options_first_row_below bd n (selection : gset Z) :
  Z.of_nat (zone_start n (below bd)) ∈ selection →
  above bd ∈ color_options selection (registry_of n).
Proof.
  intros Hin. unfold color_options, registry_of.
  destruct bd; simpl in *;
    repeat destruct (decide _); try (exfalso; tauto); simpl;
    repeat constructor.
Qed.

Lemma color_options_last_row_above bd n (selection : gset Z) :
  Z.of_nat (zone_start n (below bd)) - 1 ∈ selection →
  below bd ∈ color_options selection (registry_of n).
Proof.
  intros Hin. unfold color_options, registry_of.
  destruct bd; simpl in *;
    repeat destruct (decide _); try (exfalso; tauto); simpl;
    repeat constructor.
Qed.

Lemma zone_ordered_of_length n :
  length (zone_ordered_of colors n)
  = (zone_start n Secondary + n !!! Secondary)%nat.
Proof.
  unfold zone_ordered_of, zone_ordered, zone_start.
  rewrite !length_app, !length_replicate. lia.
Qed.

(** Recolouring rows so that a colouring in zone order becomes another one,
    and the pass that follows. *)
Lemma recolor_zone_ordered_reconciled w (indexes : list (Z * Z)) (color : QColor) n n' :
  palette_distinct colors →
  populated (table_widget w) →
  (∀ ix, ix ∈ indexes → in_table (table_widget w) ix.1 ix.2) →
  0 ≤ rowCount (table_widget w) →
  row_coloring (table_widget w) = Some (zone_ordered_of colors n) →
  recolor_rows (list_to_set (fst <$> indexes)) color (zone_ordered_of colors n)
  = zone_ordered_of colors n' →
  ∃ w', change_background_color colors indexes color w = Ok () w'
    ∧ row_coloring (table_widget w') = Some (zone_ordered_of colors n')
    ∧ color_info w' = registry_of n'
    ∧ ∀ z, input_layout w' !!! z = label_text z (2 * Z.of_nat (n' !!! z)).
Proof.
  intros Hd Hpop Hix Hrows Hcs Hrec.
  destruct (change_background_color_items w indexes color Hpop Hix)
    as (w1 & Hloop & Hframe & _ & Hitems).
  pose proof (row_coloring_recolored w w1 indexes color _ Hframe Hitems Hcs) as Hcs1.
  rewrite Hrec in Hcs1.
  destruct (reconcile_zone_ordered colors w1 _ _ _ _ Hd Hcs1)
    as (w' & Hpass & Htable & Hinfo & Hlabels).
  apply row_coloring_length in Hcs1 as Hlen. rewrite zone_ordered_of_length in Hlen.
  destruct Hframe as (Hr & _). rewrite Hr in Hlen.
  exists w'. split_and!.
  - unfold change_background_color. rewrite (bind_Ok _ _ w () w1) by done.
    by apply colorChanged_emit_Ok.
  - by rewrite Htable.
  - rewrite Hinfo. unfold registry_of. rewrite !setIndices_eq, Hr.
    unfold zone_start in *. repeat f_equal; lia.
  - intros z. rewrite Hlabels. by destruct z.
Qed.

(** X11.  In a populated table whose column 0 shows a colouring in zone
    order, with the boundaries that describe it in the registry, the rows
    selected are the first [k] rows of the zone below a boundary.  Then the
    menu offers the zone above; after that action the table shows the
    colouring in zone order with [k] rows moved to the zone above, and the
    registry and the labels describe it. *)
Theorem menu_grows_zone_down w bd (k : nat) n (indexes : list (Z * Z)) :
  palette_distinct colors →
  populated (table_widget w) →
  (∀ ix, ix ∈ indexes → in_table (table_widget w) ix.1 ix.2) →
  (1 ≤ k ≤ n !!! below bd)%nat →
  (∀ r, r ∈ (fst <$> indexes)
        ↔ Z.of_nat (zone_start n (below bd)) ≤ r
          < Z.of_nat (zone_start n (below bd) + k)) →
  row_coloring (table_widget w) = Some (zone_ordered_of colors n) →
  color_info w = registry_of n →
  above bd ∈ color_options (list_to_set (fst <$> indexes)) (color_info w)
  ∧ ∃ w',
      change_background_color colors indexes (colors !!! above bd) w = Ok () w'
      ∧ row_coloring (table_widget w')
        = Some (zone_ordered_of colors (grow_down bd k n))
      ∧ color_info w' = registry_of (grow_down bd k n)
      ∧ ∀ z, input_layout w' !!! z
             = label_text z (2 * Z.of_nat (grow_down bd k n !!! z)).
Proof.
  intros Hd Hpop Hix Hk Hsel Hcs Hinfo. split.
  - rewrite Hinfo. apply color_options_first_row_below.
    apply elem_of_list_to_set, Hsel. lia.
  - apply (recolor_zone_ordered_reconciled w indexes _ n); try done.
    + apply row_coloring_length in Hcs. rewrite zone_ordered_of_length in Hcs.
      destruct bd; simpl in Hk; unfold zone_start in Hcs; lia.
    + apply recolor_grow_down; [lia|].
      intros r. by rewrite elem_of_list_to_set.
Qed.

(** X12.  In the same situation, the rows selected are the last [k] rows of
    the zone above a boundary.  Then the menu offers the zone below; after
    that action the table shows the colouring in zone order with [k] rows
    moved to the zone below, and the registry and the labels describe it. *)
Theorem menu_grows_zone_up w bd (k : nat) n (indexes : list (Z * Z)) :
  palette_distinct colors →
  populated (table_widget w) →
  (∀ ix, ix ∈ indexes → in_table (table_widget w) ix.1 ix.2) →
  (1 ≤ k ≤ n !!! above bd)%nat →
  (∀ r, r ∈ (fst <$> indexes)
        ↔ Z.of_nat (zone_start n (below bd) - k) ≤ r
          < Z.of_nat (zone_start n (below bd))) →
  row_coloring (table_widget w) = Some (zone_ordered_of colors n) →
  color_info w = registry_of n →
  below bd ∈ color_options (list_to_set (fst <$> indexes)) (color_info w)
  ∧ ∃ w',
      change_background_color colors indexes (colors !!! below bd) w = Ok () w'
      ∧ row_coloring (table_widget w')
        = Some (zone_ordered_of colors (grow_up bd k n))
      ∧ color_info w' = registry_of (grow_up bd k n)
      ∧ ∀ z, input_layout w' !!! z
             = label_text z (2 * Z.of_nat (grow_up bd k n !!! z)).
Proof.
  intros Hd Hpop Hix Hk Hsel Hcs Hinfo.
  assert (k ≤ zone_start n (below bd))%nat as Hstart
    by (destruct bd; simpl in *; lia).
  split.
  - rewrite Hinfo. apply color_options_last_row_above.
    apply elem_of_list_to_set, Hsel. lia.
  - apply (recolor_zone_ordered_reconciled w indexes _ n); try done.
    + apply row_coloring_length in Hcs. rewrite zone_ordered_of_length in Hcs.
      destruct bd; simpl in Hk; unfold zone_start in Hcs; lia.
    + apply recolor_grow_up; [lia|].
      intros r. by rewrite elem_of_list_to_set.
Qed.

End BoundaryMoves.

(** ** TableWidget.load_output and TableWidget.reload *)

Section LoadMore.

Context {QColor : Type} `{EqDecision QColor}.
Variable colors : ZoneDict QColor.

Implicit Types (w : World QColor) (t : QTableWidget QColor).
Implicit Types (rows : list (list string)).

(** The table after [load_output] is the table after its [with] block. *)
Lemma load_output_table_of_block rows w w1 :
  load_output_with_block colors rows w = Ok () w1 →
  load_output colors rows w = colorChanged_emit colors w1
  ∧ table_widget (final_world (load_output colors rows w)) = table_widget w1.
Proof.
  intros Hblock. unfold load_output.
  rewrite (bind_Ok _ _ w () w1) by done. split; [done|].
  apply colorChanged_emit_table.
Qed.

Lemma len_column_of_le rows (line : list string) :
  line ∈ rows → Z.of_nat (length line) ≤ len_column_of rows.
Proof.
  intros Hline. unfold len_column_of.
  assert (length line ≤ max_list (length <$> rows))%nat as Hle.
  { apply max_list_elem_of_le, list_elem_of_fmap. by exists line. }
  rewrite decide_True; [lia|].
  destruct rows; [by apply elem_of_nil in Hline|simpl; lia].
Qed.

(** X13.  After [load_output] the table has one row per line of the file
    and the columns of its longest line, whatever it held before.  Every
    cell of it holds an item, painted by the position of its row alone
    (rows 0-9 core, 10-19 inactive, 20-29 active, later rows secondary);
    every field of the file is the text of the cell of its line and
    position, and the cells past the end of a shorter line have the empty
    text. *)
Theorem load_output_table rows w :
  let t' := table_widget (final_world (load_output colors rows w)) in
  rowCount t' = Z.of_nat (length rows)
  ∧ columnCount t' = len_column_of rows
  ∧ (∀ r c, in_table t' r c →
       item t' r c
       = Some (mkItem (cell_text rows r c)
                 (zone_brush colors (zone_of_position r))))
  ∧ (∀ (i j : nat) line field,
       rows !! i = Some line → line !! j = Some field →
       in_table t' (Z.of_nat i) (Z.of_nat j)
       ∧ cell_text rows (Z.of_nat i) (Z.of_nat j) = field)
  ∧ (∀ (i j : nat) line,
       rows !! i = Some line → (length line ≤ j)%nat →
       cell_text rows (Z.of_nat i) (Z.of_nat j) = ""%string).
Proof.
  intros t'.
  destruct (load_output_with_block_result colors rows w)
    as (w1 & Hblock & Hr & Hc & Hcells & _).
  destruct (load_output_table_of_block rows w w1 Hblock) as [_ Ht].
  subst t'. rewrite Ht. split_and!; [done..| |].
  - intros i j line field Hline Hfield. split.
    + unfold in_table. rewrite Hr, Hc.
      apply lookup_lt_Some in Hline as Hi. apply lookup_lt_Some in Hfield as Hj.
      assert (line ∈ rows) as Hin by (by apply list_elem_of_lookup_2 in Hline).
      pose proof (len_column_of_le rows line Hin) as Hle. lia.
    + unfold cell_text. rewrite !Nat2Z.id, Hline. simpl. by rewrite Hfield.
  - intros i j line Hline Hj. unfold cell_text.
    rewrite !Nat2Z.id, Hline. simpl. by rewrite lookup_ge_None_2.
Qed.

(** The colouring by position, for any number of rows. *)
Lemma positional_coloring (n : nat) :
  (λ r, zone_brush colors (zone_of_position r)) <$> range 0 (Z.of_nat n)
  = zone_ordered colors (n `min` 10) ((n - 10) `min` 10) ((n - 20) `min` 10) (n - 30).
Proof.
  change (zone_ordered colors ?a ?b ?c ?d)
    with (zone_ordered_of colors (mkZoneDict a b c d)).
  apply list_eq. intros i.
  rewrite list_lookup_fmap, zone_ordered_of_lookup. unfold range, zone_start. simpl.
  destruct (decide (i < n)%nat) as [Hi|Hi].
  - rewrite lookup_seqZ_lt by lia. simpl. unfold zone_of_position.
    repeat case_decide; done || lia.
  - rewrite lookup_seqZ_ge by lia. simpl.
    repeat case_decide; done || lia.
Qed.

(** X14.  For a file with a field in some line (so that the table has a
    column) and a palette of four different colours, [load_output] returns
    normally, and the pass it ends with stores the boundaries of the
    positional painting: with [n] lines, core is (0, min(n, 10) - 1),
    inactive (min(n, 10), min(n, 20) - 1), active (min(n, 20),
    min(n, 30) - 1) and secondary (min(n, 30), n - 1); the labels show twice
    the numbers of rows. *)
Theorem load_output_registry rows w :
  palette_distinct colors →
  1 ≤ len_column_of rows →
  let n := Z.of_nat (length rows) in
  ∃ w', load_output colors rows w = Ok () w'
    ∧ color_info w'
      = mkZoneDict (0, n `min` 10 - 1) (n `min` 10, n `min` 20 - 1)
          (n `min` 20, n `min` 30 - 1) (n `min` 30, n - 1)
    ∧ input_layout w'
      = mkZoneDict (label_text Core (2 * (n `min` 10)))
          (label_text Inactive (2 * (n `min` 20 - n `min` 10)))
          (label_text Active (2 * (n `min` 30 - n `min` 20)))
          (label_text Secondary (2 * (n - n `min` 30))).
Proof.
  intros Hd Hcols n.
  destruct (load_output_with_block_result colors rows w)
    as (w1 & Hblock & Hr & Hc & Hcells & _).
  destruct (load_output_table_of_block rows w w1 Hblock) as [Hload _].
  assert (row_coloring (table_widget w1)
          = Some (zone_ordered colors (length rows `min` 10)
                    ((length rows - 10) `min` 10) ((length rows - 20) `min` 10)
                    (length rows - 30))) as Hcs.
  { rewrite <-positional_coloring, <-Hr.
    apply row_coloring_of_items. intros r Hrow.
    rewrite Hcells; [done|]. unfold in_table. lia. }
  destruct (reconcile_zone_ordered colors w1 _ _ _ _ Hd Hcs)
    as (w' & Hpass & _ & Hinfo & Hlabels).
  exists w'. split_and!; [rewrite Hload; by apply colorChanged_emit_Ok|..].
  - rewrite Hinfo, setIndices_eq, Hr. subst n. repeat f_equal; lia.
  - rewrite Hlabels. subst n. repeat f_equal; lia.
Qed.

(** The pass at the end of [load_output] on a table with rows and no
    column. *)
Lemma reconcile_no_column w :
  0 < rowCount (table_widget w) →
  columnCount (table_widget w) = 0 →
  onTableWidgetColorChanged colors w = Raise AttributeError w.
Proof.
  intros Hr Hc.
  apply reconcile_raises_after_scan, scan_rows_missing, row_coloring_None.
  exists 0. split; [lia|].
  unfold item. rewrite decide_False; [done|]. unfold in_table. lia.
Qed.

(** X15.  For a file of one or more lines that are all empty, the table gets
    a row per line and no column, and [load_output] leaves the labels as
    they were and the registry with what its own call of [setIndices]
    stored, (30, -1) for the secondary zone whatever the number of rows: the
    pass run by the signal cannot read column 0 and writes nothing. *)
Theorem load_output_blank_lines rows w :
  rows ≠ [] →
  len_column_of rows = 0 →
  let w' := final_world (load_output colors rows w) in
  rowCount (table_widget w') = Z.of_nat (length rows)
  ∧ columnCount (table_widget w') = 0
  ∧ color_info w' = mkZoneDict (0, 9) (10, 19) (20, 29) (30, -1)
  ∧ input_layout w' = input_layout w.
Proof.
  intros Hrows Hcols w'. subst w'.
  destruct (load_output_with_block_result colors rows w)
    as (w1 & Hblock & Hr & Hc & _ & Hinfo & Hlabels).
  destruct (load_output_table_of_block rows w w1 Hblock) as [Hload _].
  rewrite Hload, colorChanged_emit_final_world, reconcile_no_column.
  - simpl. by rewrite Hr, Hc, Hinfo, Hlabels, Hcols.
  - rewrite Hr. destruct rows; [done|simpl; lia].
  - by rewrite Hc.
Qed.

(** X16.  For an empty file, [load_output] returns normally from any state:
    the table has no row and no column, all four stored pairs are (0, -1) and
    all four labels show 0. *)
Theorem load_output_empty_file w :
  ∃ w', load_output colors [] w = Ok () w'
    ∧ rowCount (table_widget w') = 0
    ∧ columnCount (table_widget w') = 0
    ∧ color_info w' = mkZoneDict (0, -1) (0, -1) (0, -1) (0, -1)
    ∧ input_layout w'
      = mkZoneDict "core: 0" "inactive: 0" "active: 0" "secondary: 0".
Proof.
  destruct (load_output_with_block_result colors [] w)
    as (w1 & Hblock & Hr & Hc & _).
  destruct (load_output_table_of_block [] w w1 Hblock) as [Hload _].
  rewrite Hload. unfold colorChanged_emit. rewrite reconcile_outcome.
  assert (row_coloring (table_widget w1) = Some []) as ->
    by (unfold row_coloring; by rewrite Hr).
  eexists. split; [done|]. simpl. rewrite Hr, Hc. done.
Qed.

Lemma item_outside t r c : ¬ in_table t r c → item t r c = None.
Proof. intros Hout. unfold item. by rewrite decide_False. Qed.

Lemma mapM_ext_eq {A B} (f g : A → option B) (l : list A) :
  (∀ x, f x = g x) → mapM f l = mapM g l.
Proof.
  intros Hfg. induction l as [|x l IH]; [done|]. simpl. by rewrite Hfg, IH.
Qed.

Lemma row_coloring_ext t1 t2 :
  rowCount t1 = rowCount t2 →
  (∀ r, item t1 r 0 = item t2 r 0) →
  row_coloring t1 = row_coloring t2.
Proof.
  intros Hr Hitems. unfold row_coloring. rewrite Hr.
  apply mapM_ext_eq. intros r. by rewrite Hitems.
Qed.

(** The labels of the columns after the three fixed ones. *)
Lemma header_labels_foldl (k : nat) :
  header_labels (3 + Z.of_nat k)
  = ["gerade/ungerade"; "no. of spinor"; "energy (a.u.)"]%string
    ++ (header_label <$> seqZ 3 (Z.of_nat k)).
Proof.
  unfold header_labels, range. simpl length.
  replace (3 + Z.of_nat k - Z.of_nat 3) with (Z.of_nat k) by lia.
  change (Z.of_nat 3) with 3.
  induction k as [|k IH]; [done|].
  rewrite seqZ_S, foldl_app, fmap_app, IH. simpl.
  rewrite length_fmap, length_seqZ.
  replace (3 + Z.of_nat k - Z.of_nat (S (S (S (Z.to_nat (Z.of_nat k))))))
    with 0 by lia.
  unfold header_label.
  by destruct (decide ((3 + Z.of_nat k) `mod` 2 = 0)).
Qed.

Lemma header_labels_closed (len_column : Z) :
  header_labels len_column
  = ["gerade/ungerade"; "no. of spinor"; "energy (a.u.)"]%string
    ++ (header_label <$> range 3 len_column).
Proof.
  destruct (decide (len_column ≤ 3)) as [Hle|Hgt].
  - unfold header_labels, range. simpl length.
    by rewrite !seqZ_nil by lia.
  - replace len_column with (3 + Z.of_nat (Z.to_nat (len_column - 3))) at 1 by lia.
    rewrite header_labels_foldl. unfold range. do 2 f_equal.
    unfold seqZ. by rewrite Nat2Z.id.
Qed.

(** The label [load_output] computes for a column of the table. *)
Lemma header_labels_lookup (len_column column : Z) :
  0 ≤ column < len_column →
  header_labels len_column !! Z.to_nat column = Some (column_label column).
Proof.
  intros Hc. rewrite header_labels_closed. unfold column_label.
  destruct (decide (column = 0)) as [->|H0]; [done|].
  destruct (decide (column = 1)) as [->|H1]; [done|].
  destruct (decide (column = 2)) as [->|H2]; [done|].
  rewrite lookup_app_r by (simpl; lia). simpl length.
  rewrite list_lookup_fmap. unfold range.
  rewrite lookup_seqZ_lt by lia. simpl. f_equal. f_equal. lia.
Qed.

(** The header items after the loop of [setHorizontalHeaderLabels] over the
    columns [xs]. *)
Lemma header_fold_lookup (labels : list string) (xs : list Z)
    (header : gmap Z string) (c : Z) :
  foldl (λ header column,
           match labels !! Z.to_nat column with
           | Some label => <[column := label]> header
           | None => header
           end) header xs !! c
  = if decide (c ∈ xs)
    then from_option Some (header !! c) (labels !! Z.to_nat c)
    else header !! c.
Proof.
  revert header. induction xs as [|x xs IH]; intros header.
  - destruct (decide (c ∈ [])) as [Hin|_]; [|done].
    by apply not_elem_of_nil in Hin.
  - change (foldl ?f header (x :: xs)) with (foldl f (f header x) xs).
    rewrite IH.
    assert (match labels !! Z.to_nat x with
            | Some label => <[x := label]> header
            | None => header
            end !! c
            = if decide (c = x)
              then from_option Some (header !! c) (labels !! Z.to_nat c)
              else header !! c) as Hstep.
    { destruct (decide (c = x)) as [->|Hne].
      - destruct (labels !! Z.to_nat x); [apply lookup_insert_eq|done].
      - destruct (labels !! Z.to_nat x); [by apply lookup_insert_ne|done]. }
    rewrite Hstep.
    destruct (decide (c ∈ xs)) as [Hin|Hout].
    + destruct (decide (c ∈ x :: xs)) as [_|Hno]; [|by destruct Hno; right].
      destruct (labels !! Z.to_nat c); [done|]. simpl. by destruct (decide _).
    + destruct (decide (c = x)) as [->|Hne].
      * destruct (decide (x ∈ x :: xs)) as [_|Hno]; [done|by destruct Hno; left].
      * destruct (decide (c ∈ x :: xs)) as [Hin|_]; [|done].
        apply elem_of_cons in Hin as [?|?]; done.
Qed.

Lemma bind_Ok_inv {A B} (m : M QColor A) (f : A → M QColor B) w b w' :
  (m ≫= f) w = Ok b w' → ∃ a w1, m w = Ok a w1 ∧ f a w1 = Ok b w'.
Proof.
  unfold mbind, M_bind. destruct (m w) as [a w1|e w1]; [|done].
  intros Hf. by exists a, w1.
Qed.

(** The header items of the table [load_output] builds. *)
Lemma load_output_with_block_header rows w w1 (column : Z) :
  load_output_with_block colors rows w = Ok () w1 →
  horizontalHeaderItem (table_widget w1) column
  = if decide (0 ≤ column < len_column_of rows)
    then Some (column_label column) else None.
Proof.
  intros Hblock.
  destruct (load_output_with_block_result colors rows w)
    as (w1' & Hblock' & _ & Hc & _).
  assert (w1' = w1) as -> by congruence. clear Hblock'.
  unfold load_output_with_block in Hblock. cbv zeta in Hblock.
  fold (len_column_of rows) in Hblock.
  apply bind_Ok_inv in Hblock as (? & wa & _ & Hblock).
  apply bind_Ok_inv in Hblock as (? & wb & _ & Hblock).
  apply bind_Ok_inv in Hblock as (? & wc & _ & Hblock).
  apply bind_Ok_inv in Hblock as (? & wd & _ & Hblock).
  unfold setHorizontalHeaderLabels, with_table in Hblock.
  injection Hblock as <-. simpl in Hc.
  unfold horizontalHeaderItem. simpl. rewrite Hc.
  destruct (decide (0 ≤ column < len_column_of rows)) as [Hin|Hout]; [|done].
  rewrite header_fold_lookup, decide_True by (apply elem_of_range; lia).
  by rewrite header_labels_lookup.
Qed.

(** X17.  [load_output] (and so [reload]) replaces what was loaded before:
    for a file, the states it leaves from any two states have tables of the
    same dimensions, with the same item in every cell and the same header
    item for every column, and equal registries.  When the file has no line,
    or a line with a field, the labels are equal too. *)
Theorem reload_replaces rows w1 w2 :
  let s1 := final_world (reload colors rows w1) in
  let s2 := final_world (reload colors rows w2) in
  rowCount (table_widget s1) = rowCount (table_widget s2)
  ∧ columnCount (table_widget s1) = columnCount (table_widget s2)
  ∧ (∀ r c, item (table_widget s1) r c = item (table_widget s2) r c)
  ∧ (∀ c, horizontalHeaderItem (table_widget s1) c
          = horizontalHeaderItem (table_widget s2) c)
  ∧ color_info s1 = color_info s2
  ∧ (rows = [] ∨ 1 ≤ len_column_of rows → input_layout s1 = input_layout s2).
Proof.
  intros s1 s2. subst s1 s2. unfold reload.
  destruct (load_output_with_block_result colors rows w1)
    as (v1 & Hblock1 & Hr1 & Hc1 & Hcells1 & Hinfo1 & _).
  destruct (load_output_with_block_result colors rows w2)
    as (v2 & Hblock2 & Hr2 & Hc2 & Hcells2 & Hinfo2 & _).
  destruct (load_output_table_of_block rows w1 v1 Hblock1) as [Hload1 Ht1].
  destruct (load_output_table_of_block rows w2 v2 Hblock2) as [Hload2 Ht2].
  assert (∀ r c, item (table_widget v1) r c = item (table_widget v2) r c) as Hitems.
  { intros r c. destruct (decide (in_table (table_widget v1) r c)) as [Hin|Hout].
    - rewrite Hcells1 by done. rewrite Hcells2; [done|].
      unfold in_table in *. by rewrite Hr2, Hc2, <-Hr1, <-Hc1.
    - rewrite !item_outside; [done| |done].
      unfold in_table in *. by rewrite Hr2, Hc2, <-Hr1, <-Hc1. }
  assert (row_coloring (table_widget v1) = row_coloring (table_widget v2)) as Hcs.
  { apply row_coloring_ext; [congruence|]. intros r. apply Hitems. }
  rewrite Ht1, Ht2, Hload1, Hload2, !colorChanged_emit_final_world,
    !reconcile_outcome, Hcs.
  split_and!; [congruence|congruence|done|..].
  - intros c.
    by rewrite (load_output_with_block_header rows w1 v1 c Hblock1),
      (load_output_with_block_header rows w2 v2 c Hblock2).
  - destruct (row_coloring (table_widget v2)); simpl.
    + rewrite !setIndices_eq. congruence.
    + by rewrite Hinfo1, Hinfo2, !setIndices_eq.
  - intros Hfile.
    assert (is_Some (row_coloring (table_widget v2))) as [cs ->]; [|done].
    apply row_coloring_is_Some. intros row Hrow.
    destruct Hfile as [->|Hcols]; [simpl in Hr2; lia|].
    rewrite Hcells2; [by eexists|]. unfold in_table. lia.
Qed.

(** X18.  After [load_output] every column of the table has a header item
    and there is none beyond the last column: columns 0, 1 and 2 are
    labelled with the three fixed headers (a table of fewer than three
    columns shows only as many of them as it has columns), and a column of
    index 3 or more is labelled "percentage 1" for an even index and
    "AO type 1" for an odd one.  The number in the label is 1 for every
    column, since the list of labels grows with the index. *)
Theorem load_output_header_labels rows w (column : Z) :
  horizontalHeaderItem
    (table_widget (final_world (load_output colors rows w))) column
  = if decide (0 ≤ column < len_column_of rows)
    then Some (column_label column) else None.
Proof.
  destruct (load_output_with_block_result colors rows w) as (w1 & Hblock & _).
  destruct (load_output_table_of_block rows w w1 Hblock) as [_ Ht].
  rewrite Ht. by apply (load_output_with_block_header rows w w1).
Qed.

Lemma load_output_populated rows w :
  populated (table_widget (final_world (load_output colors rows w))).
Proof.
  destruct (load_output_with_block_uniform colors rows w)
    as (w1 & Hblock & Hpop & _).
  destruct (load_output_table_of_block rows w w1 Hblock) as [_ Ht].
  by rewrite Ht.
Qed.

End LoadMore.

(** ** TableWidget.update_color *)

Section UpdateColor.

Context {QColor : Type} `{EqDecision QColor}.
Variable colors : ZoneDict QColor.
Variable default_color : QColor.
Variable prev_color : ZoneDict QColor.

Implicit Types (w : World QColor) (t : QTableWidget QColor).
Implicit Types (b : QBrush QColor) (cs : list (QBrush QColor)).

(** One round of the loop of [update_color]. *)
Lemma update_color_row w row :
  0 ≤ row < rowCount (table_widget w) →
  1 ≤ columnCount (table_widget w) →
  populated (table_widget w) →
  ∃ w',
    (color ← (b ← item_background row 0; mret (brush_color default_color b));
     if decide (color = prev_color !!! Core)
     then change_selected_rows_background_color row (colors !!! Core)
     else if decide (color = prev_color !!! Inactive)
     then change_selected_rows_background_color row (colors !!! Inactive)
     else if decide (color = prev_color !!! Active)
     then change_selected_rows_background_color row (colors !!! Active)
     else if decide (color = prev_color !!! Secondary)
     then change_selected_rows_background_color row (colors !!! Secondary)
     else mret ()) w = Ok () w'
    ∧ same_frame w w'
    ∧ ∀ r c, item (table_widget w') r c
             = if decide (r = row)
               then updated_cell default_color colors prev_color (table_widget w) r c
               else item (table_widget w) r c.
Proof.
  intros Hrow Hcols Hpop.
  destruct (Hpop row 0) as [it0 Hit0]; [unfold in_table; lia|].
  rewrite (bind_Ok _ _ w (brush_color default_color (background it0)) w).
  2:{ rewrite (bind_Ok _ _ w (background it0) w); [done|].
      by apply item_background_Some. }
  assert (∀ z,
    classify_color prev_color (brush_color default_color (background it0)) = Some z →
    ∃ w', change_selected_rows_background_color row (colors !!! z) w = Ok () w'
      ∧ same_frame w w'
      ∧ ∀ r c, item (table_widget w') r c
               = if decide (r = row)
                 then updated_cell default_color colors prev_color (table_widget w) r c
                 else item (table_widget w) r c) as Hpaint.
  { intros z Hz.
    destruct (change_selected_rows_background_color_exact w row (colors !!! z))
      as (w' & Hrec & Hframe & Hitems); [done..|].
    exists w'. split_and!; [done..|].
    intros r c. rewrite Hitems. destruct (decide (r = row)) as [->|]; [|done].
    unfold updated_cell. by rewrite Hit0, Hz. }
  unfold classify_color in Hpaint.
  repeat destruct (decide (brush_color _ _ = _)); try (by apply Hpaint).
  exists w. split_and!; [done|apply same_frame_refl|].
  intros r c. destruct (decide (r = row)) as [->|]; [|done].
  unfold updated_cell, classify_color. rewrite Hit0.
  by rewrite !decide_False by done.
Qed.

Lemma update_color_loop (rows : list Z) w :
  NoDup rows →
  (∀ row, row ∈ rows → 0 ≤ row < rowCount (table_widget w)) →
  1 ≤ columnCount (table_widget w) →
  populated (table_widget w) →
  ∃ w',
    for_ rows (λ row,
      color ← (b ← item_background row 0; mret (brush_color default_color b));
      if decide (color = prev_color !!! Core)
      then change_selected_rows_background_color row (colors !!! Core)
      else if decide (color = prev_color !!! Inactive)
      then change_selected_rows_background_color row (colors !!! Inactive)
      else if decide (color = prev_color !!! Active)
      then change_selected_rows_background_color row (colors !!! Active)
      else if decide (color = prev_color !!! Secondary)
      then change_selected_rows_background_color row (colors !!! Secondary)
      else mret ()) w = Ok () w'
    ∧ same_frame w w'
    ∧ ∀ r c, item (table_widget w') r c
             = if decide (r ∈ rows)
               then updated_cell default_color colors prev_color (table_widget w) r c
               else item (table_widget w) r c.
Proof.
  revert w. induction rows as [|row rows IH]; intros w Hnd Hrows Hcols Hpop.
  - exists w. split_and!; [done|apply same_frame_refl|].
    intros r c. rewrite decide_False; [done|]. apply not_elem_of_nil.
  - apply NoDup_cons in Hnd as [Hrow Hnd].
    destruct (update_color_row w row) as (w1 & Hone & Hframe1 & Hitems1);
      [apply Hrows; by left|done..|].
    assert (populated (table_widget w1)) as Hpop1.
    { apply (populated_same_frame w w1); [done| |done].
      intros r c Hsome. rewrite Hitems1. destruct (decide _); [|done].
      unfold updated_cell. destruct (item (table_widget w) r 0); [|done].
      destruct (classify_color _ _); [|done]. by apply fmap_is_Some. }
    destruct (IH w1) as (w' & Hrest & Hframe' & Hitems'); [done| | |done|].
    { intros r Hr. destruct Hframe1 as (-> & _). apply Hrows. by right. }
    { by destruct Hframe1 as (_ & -> & _). }
    exists w'. split_and!.
    + by rewrite (for__cons row rows _ w w1).
    + by apply (same_frame_trans w w1 w').
    + intros r c. rewrite Hitems'.
      destruct (decide (r = row)) as [->|Hne].
      * rewrite (decide_False (P := row ∈ rows)) by done.
        rewrite Hitems1, decide_True by done.
        rewrite decide_True; [done|by left].
      * destruct (decide (r ∈ rows)) as [Hr|Hr].
        -- rewrite decide_True by (by right).
           unfold updated_cell. by rewrite !Hitems1, !decide_False by done.
        -- rewrite Hitems1, decide_False by done.
           rewrite decide_False; [done|].
           intros Hin. apply elem_of_cons in Hin as [?|?]; done.
Qed.

(** X19.  On a populated table with a column, [update_color] returns
    normally and changes brushes only: the dimensions, the texts, the
    registry and the labels stay, and the cells of a row whose cell in
    column 0 has a colour of the previous palette all get the colour of the
    same zone in the palette in force, while the cells of every other row
    keep their item.  No pass is run. *)
Theorem update_color_cells w :
  1 ≤ columnCount (table_widget w) →
  populated (table_widget w) →
  ∃ w', update_color colors default_color prev_color w = Ok () w'
    ∧ same_frame w w'
    ∧ same_texts w w'
    ∧ ∀ r c, item (table_widget w') r c
             = updated_cell default_color colors prev_color (table_widget w) r c.
Proof.
  intros Hcols Hpop.
  destruct (update_color_loop (range 0 (rowCount (table_widget w))) w)
    as (w' & Hloop & Hframe & Hitems); [apply NoDup_seqZ| |done..|].
  { intros row Hrow. apply elem_of_range in Hrow. lia. }
  assert (∀ r c, item (table_widget w') r c
                 = updated_cell default_color colors prev_color (table_widget w) r c)
    as Hcells.
  { intros r c. rewrite Hitems. destruct (decide _) as [|Hout]; [done|].
    rewrite elem_of_range in Hout. unfold updated_cell.
    rewrite (item_outside _ r 0); [done|]. unfold in_table. lia. }
  exists w'. split_and!; [|done| |done].
  - unfold update_color. by rewrite (bind_Ok _ _ w w w).
  - intros r c. rewrite Hcells. unfold updated_cell.
    destruct (item (table_widget w) r 0); [|done].
    destruct (classify_color _ _); [|done].
    by destruct (item (table_widget w) r c).
Qed.

Lemma classify_color_palette (palette : ZoneDict QColor) z :
  palette_distinct palette → classify_color palette (palette !!! z) = Some z.
Proof.
  intros Hd. unfold classify_color.
  repeat (destruct (decide _) as [Heq|?];
          [apply (palette_distinct_inj palette _ _ Hd) in Heq; by subst z|]).
  by destruct z.
Qed.

Lemma translate_zone_brush z :
  palette_distinct prev_color →
  translate default_color colors prev_color (zone_brush prev_color z)
  = zone_brush colors z.
Proof.
  intros Hd. unfold translate, zone_brush. simpl.
  by rewrite classify_color_palette.
Qed.

Lemma recognized_zone_list cs :
  Forall (recognized prev_color) cs → ∃ zs, cs = zone_brush prev_color <$> zs.
Proof.
  induction 1 as [|b cs [z ->] _ [zs ->]]; [by exists []|].
  by exists (z :: zs).
Qed.

Lemma scan_step_zone_brush (palette : ZoneDict QColor) row z st :
  palette_distinct palette →
  scan_step palette row (zone_brush palette z) st = record_row z row st.
Proof.
  intros Hd. rewrite scan_step_classify.
  by rewrite (classify_carries palette (zone_brush palette z) z).
Qed.

Lemma scan_from_zone_brushes (zs : list Zone) (m : Z) st :
  palette_distinct colors → palette_distinct prev_color →
  scan_from colors m (zone_brush colors <$> zs) st
  = scan_from prev_color m (zone_brush prev_color <$> zs) st.
Proof.
  intros Hd Hdp. revert m st. induction zs as [|z zs IH]; intros m st; [done|].
  simpl. by rewrite !scan_step_zone_brush, IH.
Qed.

Lemma row_coloring_updated w w' cs :
  same_frame w w' →
  (∀ r c, item (table_widget w') r c
          = updated_cell default_color colors prev_color (table_widget w) r c) →
  row_coloring (table_widget w) = Some cs →
  row_coloring (table_widget w')
  = Some (translate default_color colors prev_color <$> cs).
Proof.
  intros (Hr & _) Hitems Hcs.
  apply row_coloring_lookup in Hcs as [Hlen Hrows].
  apply row_coloring_lookup. rewrite length_fmap, Hr. split; [done|].
  intros i b Hb. rewrite list_lookup_fmap in Hb.
  destruct (cs !! i) as [b0|] eqn:Hb0; [|done]. simpl in Hb.
  apply Hrows in Hb0. rewrite Hitems. unfold updated_cell.
  destruct (item (table_widget w) (Z.of_nat i) 0) as [it0|]; [|done].
  simpl in Hb0. unfold translate in Hb. simplify_eq.
  by destruct (classify_color _ _).
Qed.

(** X20.  The palette is switched on a populated table whose rows all have
    a colour of the previous palette, both palettes having four different
    colours.  After [update_color] the table shows the colouring with every
    brush translated to the palette in force, and a pass with that palette
    stores the boundaries and shows the counts that a pass with the previous
    palette gave before the switch. *)
Theorem update_color_keeps_zones w cs :
  palette_distinct colors →
  palette_distinct prev_color →
  1 ≤ columnCount (table_widget w) →
  populated (table_widget w) →
  row_coloring (table_widget w) = Some cs →
  Forall (recognized prev_color) cs →
  ∃ w1 w2 w3,
    update_color colors default_color prev_color w = Ok () w1
    ∧ row_coloring (table_widget w1)
      = Some (translate default_color colors prev_color <$> cs)
    ∧ onTableWidgetColorChanged colors w1 = Ok () w2
    ∧ onTableWidgetColorChanged prev_color w = Ok () w3
    ∧ color_info w2 = color_info w3
    ∧ input_layout w2 = input_layout w3.
Proof.
  intros Hd Hdp Hcols Hpop Hcs Hrec.
  destruct (update_color_loop (range 0 (rowCount (table_widget w))) w)
    as (w1 & Hloop & Hframe & Hitems); [apply NoDup_seqZ| |done..|].
  { intros row Hrow. apply elem_of_range in Hrow. lia. }
  assert (∀ r c, item (table_widget w1) r c
                 = updated_cell default_color colors prev_color (table_widget w) r c)
    as Hcells.
  { intros r c. rewrite Hitems. destruct (decide _) as [|Hout]; [done|].
    rewrite elem_of_range in Hout. unfold updated_cell.
    rewrite (item_outside _ r 0); [done|]. unfold in_table. lia. }
  pose proof (row_coloring_updated w w1 cs Hframe Hcells Hcs) as Hcs1.
  destruct (recognized_zone_list cs Hrec) as [zs ->].
  assert (translate default_color colors prev_color <$> (zone_brush prev_color <$> zs)
          = zone_brush colors <$> zs) as Htr.
  { rewrite <-list_fmap_compose. apply list_fmap_ext. intros i z _. simpl.
    by apply translate_zone_brush. }
  do 3 eexists. split_and!.
  - unfold update_color. by rewrite (bind_Ok _ _ w w w).
  - done.
  - by rewrite reconcile_outcome, Hcs1.
  - by rewrite reconcile_outcome, Hcs.
  - simpl. rewrite !setIndices_eq, Htr, scan_from_zone_brushes by done.
    destruct Hframe as (-> & _). done.
  - simpl. by rewrite Htr, scan_from_zone_brushes by done.
Qed.

End UpdateColor.

(** ** The further properties on the sample tables *)

Lemma other_colors_distinct : palette_distinct other_colors.
Proof. unfold palette_distinct. by apply (bool_decide_unpack _). Qed.

Lemma zone_ordered_recognized {QColor} (colors : ZoneDict QColor) (n1 n2 n3 n4 : nat) :
  Forall (recognized colors) (zone_ordered colors n1 n2 n3 n4).
Proof.
  unfold zone_ordered. rewrite !Forall_app.
  split_and!; apply Forall_replicate; by eexists.
Qed.

Lemma loaded_40x5_populated : populated (table_widget loaded_40x5).
Proof. apply load_output_populated. Qed.

Lemma loaded_40x5_coloring :
  row_coloring (table_widget loaded_40x5)
  = Some (zone_ordered_of sample_colors ten_each).
Proof. by vm_compute. Qed.

Lemma loaded_40x5_in_table (row : Z) :
  0 ≤ row < 40 → in_table (table_widget loaded_40x5) row 0.
Proof.
  assert (rowCount (table_widget loaded_40x5) = 40) as Hr by (by vm_compute).
  assert (columnCount (table_widget loaded_40x5) = 5) as Hc by (by vm_compute).
  unfold in_table. rewrite Hr, Hc. lia.
Qed.

Lemma reconcile_overwrites_witness :
  ∃ w1' w2',
    onTableWidgetColorChanged sample_colors loaded_40x5 = Ok () w1'
    ∧ onTableWidgetColorChanged sample_colors
        (mkWorld (table_widget loaded_40x5) index_info_init labels_init)
      = Ok () w2'
    ∧ color_info w2' = color_info w1'
    ∧ input_layout w2' = input_layout w1'.
Proof.
  apply (reconcile_overwrites sample_colors loaded_40x5
           (mkWorld (table_widget loaded_40x5) index_info_init labels_init)
           (zone_ordered_of sample_colors ten_each)).
  - reflexivity.
  - apply loaded_40x5_coloring.
Defined.

Lemma reconcile_ranges_zone_ordered_witness :
  ∃ w', onTableWidgetColorChanged sample_colors
          (world_of_column (zone_ordered sample_colors 2 0 1 3)) = Ok () w'
    ∧ (∀ (i : nat) b z,
         zone_ordered sample_colors 2 0 1 3 !! i = Some b →
         in_stored_range (color_info w') z (Z.of_nat i)
         ↔ b = zone_brush sample_colors z)
    ∧ ∀ z, input_layout w' !!! z
           = label_text z (2 * stored_size (color_info w') z).
Proof.
  apply (reconcile_ranges_zone_ordered sample_colors
           (world_of_column (zone_ordered sample_colors 2 0 1 3)) 2 0 1 3).
  - apply sample_colors_distinct.
  - simpl. lia.
  - reflexivity.
Defined.

Lemma rows_5_19_in_table (ix : Z * Z) :
  ix ∈ [(5, 0); (19, 0)] → in_table (table_widget loaded_40x5) ix.1 ix.2.
Proof.
  intros Hix. apply elem_of_cons in Hix as [->|Hix];
    [|apply list_elem_of_singleton in Hix as ->];
    apply loaded_40x5_in_table; simpl; lia.
Qed.

Lemma change_background_color_keeps_texts_witness :
  let t := table_widget loaded_40x5 in
  let t' := table_widget
              (final_world (change_background_color sample_colors [(5, 0); (19, 0)]
                              (sample_colors !!! Active) loaded_40x5)) in
  rowCount t' = rowCount t
  ∧ columnCount t' = columnCount t
  ∧ (∀ r c, text <$> item t' r c = text <$> item t r c)
  ∧ ∀ r c, item t' r c
           = if decide (r ∈ (fst <$> [(5, 0); (19, 0)]))
             then repaint (sample_colors !!! Active) <$> item t r c
             else item t r c.
Proof.
  apply (change_background_color_keeps_texts sample_colors loaded_40x5
           [(5, 0); (19, 0)] (sample_colors !!! Active)).
  - apply loaded_40x5_populated.
  - apply rows_5_19_in_table.
Defined.

Lemma change_background_color_reconciles_witness :
  ∃ w', change_background_color sample_colors [(5, 0); (19, 0)]
          (sample_colors !!! Active) loaded_40x5 = Ok () w'
    ∧ row_coloring (table_widget w')
      = Some (recolor_rows (list_to_set (fst <$> [(5, 0); (19, 0)]))
                (sample_colors !!! Active) (zone_ordered_of sample_colors ten_each))
    ∧ ∀ z, input_layout w' !!! z
           = label_text z
               (2 * rows_of sample_colors z
                      (recolor_rows (list_to_set (fst <$> [(5, 0); (19, 0)]))
                         (sample_colors !!! Active)
                         (zone_ordered_of sample_colors ten_each))).
Proof.
  apply (change_background_color_reconciles sample_colors loaded_40x5
           [(5, 0); (19, 0)] (sample_colors !!! Active)
           (zone_ordered_of sample_colors ten_each)).
  - apply sample_colors_distinct.
  - apply loaded_40x5_populated.
  - apply rows_5_19_in_table.
  - apply loaded_40x5_coloring.
Defined.

Lemma rows_10_14_in_table (ix : Z * Z) :
  ix ∈ [(10, 0); (11, 0); (12, 0); (13, 0); (14, 0)] →
  in_table (table_widget loaded_40x5) ix.1 ix.2.
Proof.
  intros Hix. repeat (apply elem_of_cons in Hix as [->|Hix]);
    [..|by apply elem_of_nil in Hix]; apply loaded_40x5_in_table; simpl; lia.
Qed.

Lemma rows_10_14_range (r : Z) :
  r ∈ (fst <$> [(10, 0); (11, 0); (12, 0); (13, 0); (14, 0)]) ↔ 10 ≤ r < 15.
Proof. simpl. rewrite !elem_of_cons, elem_of_nil. lia. Qed.

Lemma menu_grows_zone_down_witness :
  Core ∈ color_options
           (list_to_set (fst <$> [(10, 0); (11, 0); (12, 0); (13, 0); (14, 0)]))
           (color_info loaded_40x5)
  ∧ ∃ w',
      change_background_color sample_colors
        [(10, 0); (11, 0); (12, 0); (13, 0); (14, 0)] (sample_colors !!! Core)
        loaded_40x5 = Ok () w'
      ∧ row_coloring (table_widget w')
        = Some (zone_ordered_of sample_colors (grow_down CoreInactive 5 ten_each))
      ∧ color_info w' = registry_of (grow_down CoreInactive 5 ten_each)
      ∧ ∀ z, input_layout w' !!! z
             = label_text z (2 * Z.of_nat (grow_down CoreInactive 5 ten_each !!! z)).
Proof.
  apply (menu_grows_zone_down sample_colors loaded_40x5 CoreInactive 5 ten_each
           [(10, 0); (11, 0); (12, 0); (13, 0); (14, 0)]).
  - apply sample_colors_distinct.
  - apply loaded_40x5_populated.
  - apply rows_10_14_in_table.
  - simpl. lia.
  - apply rows_10_14_range.
  - apply loaded_40x5_coloring.
  - by vm_compute.
Defined.

Lemma menu_grows_zone_up_witness :
  Secondary ∈ color_options
                (list_to_set (fst <$> [(25, 0); (26, 0); (27, 0); (28, 0); (29, 0)]))
                (color_info loaded_40x5)
  ∧ ∃ w',
      change_background_color sample_colors
        [(25, 0); (26, 0); (27, 0); (28, 0); (29, 0)] (sample_colors !!! Secondary)
        loaded_40x5 = Ok () w'
      ∧ row_coloring (table_widget w')
        = Some (zone_ordered_of sample_colors (grow_up ActiveSecondary 5 ten_each))
      ∧ color_info w' = registry_of (grow_up ActiveSecondary 5 ten_each)
      ∧ ∀ z, input_layout w' !!! z
             = label_text z (2 * Z.of_nat (grow_up ActiveSecondary 5 ten_each !!! z)).
Proof.
  apply (menu_grows_zone_up sample_colors loaded_40x5 ActiveSecondary 5 ten_each
           [(25, 0); (26, 0); (27, 0); (28, 0); (29, 0)]).
  - apply sample_colors_distinct.
  - apply loaded_40x5_populated.
  - intros ix Hix. repeat (apply elem_of_cons in Hix as [->|Hix]);
      [..|by apply elem_of_nil in Hix]; apply loaded_40x5_in_table; simpl; lia.
  - simpl. lia.
  - intros r. simpl. rewrite !elem_of_cons, elem_of_nil. lia.
  - apply loaded_40x5_coloring.
  - by vm_compute.
Defined.

Lemma load_output_registry_witness :
  let n := Z.of_nat (length file_12x2) in
  ∃ w', load_output sample_colors file_12x2 world_init = Ok () w'
    ∧ color_info w'
      = mkZoneDict (0, n `min` 10 - 1) (n `min` 10, n `min` 20 - 1)
          (n `min` 20, n `min` 30 - 1) (n `min` 30, n - 1)
    ∧ input_layout w'
      = mkZoneDict (label_text Core (2 * (n `min` 10)))
          (label_text Inactive (2 * (n `min` 20 - n `min` 10)))
          (label_text Active (2 * (n `min` 30 - n `min` 20)))
          (label_text Secondary (2 * (n - n `min` 30))).
Proof.
  apply (load_output_registry sample_colors file_12x2 world_init).
  - apply sample_colors_distinct.
  - by vm_compute.
Defined.

Lemma load_output_blank_lines_witness :
  let w' := final_world (load_output sample_colors file_30_empty world_init) in
  rowCount (table_widget w') = Z.of_nat (length file_30_empty)
  ∧ columnCount (table_widget w') = 0
  ∧ color_info w' = mkZoneDict (0, 9) (10, 19) (20, 29) (30, -1)
  ∧ input_layout w' = input_layout world_init.
Proof.
  apply (load_output_blank_lines sample_colors file_30_empty world_init).
  - discriminate.
  - reflexivity.
Defined.

Lemma reload_replaces_witness :
  let s1 := final_world (reload sample_colors file_12x2 world_init) in
  let s2 := final_world (reload sample_colors file_12x2 loaded_40x5) in
  rowCount (table_widget s1) = rowCount (table_widget s2)
  ∧ columnCount (table_widget s1) = columnCount (table_widget s2)
  ∧ (∀ r c, item (table_widget s1) r c = item (table_widget s2) r c)
  ∧ (∀ c, horizontalHeaderItem (table_widget s1) c
          = horizontalHeaderItem (table_widget s2) c)
  ∧ color_info s1 = color_info s2
  ∧ input_layout s1 = input_layout s2.
Proof.
  intros s1 s2.
  destruct (reload_replaces sample_colors file_12x2 world_init loaded_40x5)
    as (Hr & Hc & Hitems & Hheader & Hinfo & Hlabels).
  split_and!; [exact Hr|exact Hc|exact Hitems|exact Hheader|exact Hinfo|].
  apply Hlabels. right. by vm_compute.
Defined.

Lemma update_color_cells_witness :
  ∃ w', update_color other_colors black sample_colors loaded_40x5 = Ok () w'
    ∧ same_frame loaded_40x5 w'
    ∧ same_texts loaded_40x5 w'
    ∧ ∀ r c, item (table_widget w') r c
             = updated_cell black other_colors sample_colors
                 (table_widget loaded_40x5) r c.
Proof.
  apply (update_color_cells other_colors black sample_colors loaded_40x5).
  - by vm_compute.
  - apply loaded_40x5_populated.
Defined.

Lemma update_color_keeps_zones_witness :
  ∃ w1 w2 w3,
    update_color other_colors black sample_colors loaded_40x5 = Ok () w1
    ∧ row_coloring (table_widget w1)
      = Some (translate black other_colors sample_colors
                <$> zone_ordered_of sample_colors ten_each)
    ∧ onTableWidgetColorChanged other_colors w1 = Ok () w2
    ∧ onTableWidgetColorChanged sample_colors loaded_40x5 = Ok () w3
    ∧ color_info w2 = color_info w3
    ∧ input_layout w2 = input_layout w3.
Proof.
  apply (update_color_keeps_zones other_colors black sample_colors loaded_40x5
           (zone_ordered_of sample_colors ten_each)).
  - apply other_colors_distinct.
  - apply sample_colors_distinct.
  - by vm_compute.
  - apply loaded_40x5_populated.
  - apply loaded_40x5_coloring.
  - apply zone_ordered_recognized.
Defined.
